(** * callbackDataBus.js: a key registry coalescing fetches, with a timed cache

    A shallow embedding of [callbackDataBus.js].  The module keeps one global
    object, [CALLBACK_QUEUE], mapping a key to a record
    [{callbacks, expiration, fetchInterval, fetchFunction, fetchTimer, results}].
    Its functions read and mutate that object, defer user callbacks with
    [process.nextTick], arm timers with [setTimeout], read the wall clock
    with [new Date().getTime()] and throw.  All of this is explicit here:
    a [world] holds the registry, the queue of deferred calls, the armed
    timers and the clock, and each JavaScript function is a computation in
    a state-and-exception monad over [world].

    Conventions.
    - Keys are own property names of [CALLBACK_QUEUE] (the registry is a
      [gmap string record]); the special name [__proto__] is outside the model.
    - Durations and instants are integers of milliseconds, as the comment on
      [CALLBACK_QUEUE] says; an omitted numeric argument is [None].
    - The calls to [LOGR.debug] only build strings for a log sink and do not
      touch the registry; they are left out.
    - User callbacks are opaque: running one is recorded, its body belongs to
      the caller. *)

From stdpp Require Import base option list gmap strings.
From Stdlib Require Import ZArith.

Local Open Scope Z_scope.

(** ** Values *)

(** The payload [(err, data)] handed to [completeFetch] is never inspected by
    the module; these are the JavaScript values it may be, and the values the
    functions return. *)
Inductive jsval : Type :=
  | JUndefined
  | JNull
  | JBool (b : bool)
  | JNum (n : Z)
  | JStr (s : string).

(** A callback registered on a key: a function of the caller, known by its
    identity, or the module's own [nullFn]. *)
Inductive callback : Type :=
  | UserCallback (id : nat)
  | nullFn.

(** The fetch function given to [scheduleFetch] receives a completion callback.
    Its body is the caller's; the two shapes the source shows are kept: the
    test's fetcher calls the completion before it returns, the fetcher of the
    comment above [scheduleFetch] starts a request and returns, the completion
    being called in a later turn. *)
Inductive fetchFn : Type :=
  | FetchNow (id : nat) (err data : jsval)
  | FetchLater (id : nat).

(** The [expiration] property: absent, [null], or an instant. *)
Inductive expiry : Type :=
  | ExpAbsent
  | ExpNull
  | ExpAt (t : Z).

(** Handle returned by [setTimeout] (a Timeout object: always truthy). *)
Definition timerId : Type := nat.

(** One entry of [CALLBACK_QUEUE].  Every record is created by
    [registerFetch], which sets [callbacks] at once, so that property is
    always an array. *)
Record record : Type := mkRecord {
  callbacks : list callback;
  expiration : expiry;
  fetchInterval : option Z;
  fetchFunction : option fetchFn;
  fetchTimer : option timerId;
  results : option (jsval * jsval)
}.

(** [{}] followed by [.callbacks = [callback]]. *)
Definition newRecord (cb : callback) : record :=
  mkRecord [cb] ExpAbsent None None None None.

Definition set_callbacks (v : list callback) (r : record) : record :=
  mkRecord v (expiration r) (fetchInterval r) (fetchFunction r) (fetchTimer r) (results r).
Definition set_expiration (v : expiry) (r : record) : record :=
  mkRecord (callbacks r) v (fetchInterval r) (fetchFunction r) (fetchTimer r) (results r).
Definition set_fetchInterval (v : option Z) (r : record) : record :=
  mkRecord (callbacks r) (expiration r) v (fetchFunction r) (fetchTimer r) (results r).
Definition set_fetchFunction (v : option fetchFn) (r : record) : record :=
  mkRecord (callbacks r) (expiration r) (fetchInterval r) v (fetchTimer r) (results r).
Definition set_fetchTimer (v : option timerId) (r : record) : record :=
  mkRecord (callbacks r) (expiration r) (fetchInterval r) (fetchFunction r) v (results r).
Definition set_results (v : option (jsval * jsval)) (r : record) : record :=
  mkRecord (callbacks r) (expiration r) (fetchInterval r) (fetchFunction r) (fetchTimer r) v.

(** ** The world around the registry *)

(** A call deferred by [process.nextTick(function() {cb(err, data);})]. *)
Record tick : Type := Tick {
  tick_callback : callback;
  tick_err : jsval;
  tick_data : jsval
}.

(** What an armed timer does when it fires: the two closures given to
    [setTimeout] in [completeFetch]. *)
Inductive timerAction : Type :=
  | TRefetch (key : string)
  | TExpire (key : string).

Record timerEntry : Type := mkTimer {
  timer_armedAt : Z;
  timer_delay : Z;
  timer_action : timerAction
}.

Record world : Type := mkWorld {
  CALLBACK_QUEUE : gmap string record;
  (** deferred calls, oldest first *)
  nextTickQueue : list tick;
  (** deferred calls that have run, oldest first *)
  delivered : list tick;
  (** armed timers *)
  timers : gmap nat timerEntry;
  (** next handle [setTimeout] gives out *)
  timerSeq : nat;
  (** [new Date().getTime()] *)
  clock : Z;
  (** fetch functions called so far, each with the key its completion
      callback closes over *)
  fetchCalls : list (fetchFn * string)
}.

Definition initialWorld : world :=
  mkWorld ∅ [] [] ∅ 0%nat 0 [].

Definition set_queue (q : gmap string record) (w : world) : world :=
  mkWorld q (nextTickQueue w) (delivered w) (timers w) (timerSeq w) (clock w) (fetchCalls w).
Definition set_clock (t : Z) (w : world) : world :=
  mkWorld (CALLBACK_QUEUE w) (nextTickQueue w) (delivered w) (timers w) (timerSeq w) t (fetchCalls w).

(** ** Computations: state and exceptions *)

Inductive exn : Type :=
  | Thrown (msg : string)
  | TypeError.

Inductive outcome (A : Type) : Type :=
  | Returned (a : A)
  | Raised (e : exn).
Arguments Returned {A} a.
Arguments Raised {A} e.

Definition M (A : Type) : Type := world -> outcome A * world.

Definition ret {A} (a : A) : M A := fun w => (Returned a, w).
Definition throw {A} (e : exn) : M A := fun w => (Raised e, w).
Definition bind {A B} (m : M A) (k : A -> M B) : M B :=
  fun w => match m w with
           | (Returned a, w1) => k a w1
           | (Raised e, w1) => (Raised e, w1)
           end.

Notation "'let*' x ':=' m 'in' k" := (bind m (fun x => k))
  (at level 10, x name, m at level 100, k at level 200).
Notation "'exec' m 'in' k" := (bind m (fun _ => k))
  (at level 10, m at level 100, k at level 200).

(** [CALLBACK_QUEUE[key]]: the record, or [undefined]. *)
Definition lookupKey (key : string) : M (option record) :=
  fun w => (Returned (CALLBACK_QUEUE w !! key), w).

(** [CALLBACK_QUEUE[key].p]: reading a property of [undefined] is a
    TypeError. *)
Definition getRecord (key : string) : M record :=
  fun w => match CALLBACK_QUEUE w !! key with
           | Some r => (Returned r, w)
           | None => (Raised TypeError, w)
           end.

(** [CALLBACK_QUEUE[key].p = v] and [delete CALLBACK_QUEUE[key].p]. *)
Definition assignField (key : string) (f : record -> record) : M unit :=
  let* r := getRecord key in
  fun w => (Returned tt, set_queue (<[key := f r]> (CALLBACK_QUEUE w)) w).

(** [CALLBACK_QUEUE[key] = r]. *)
Definition assignKey (key : string) (r : record) : M unit :=
  fun w => (Returned tt, set_queue (<[key := r]> (CALLBACK_QUEUE w)) w).

(** [delete CALLBACK_QUEUE[key]]. *)
Definition deleteKey (key : string) : M unit :=
  fun w => (Returned tt, set_queue (delete key (CALLBACK_QUEUE w)) w).

(** [new Date().getTime()]. *)
Definition getTime : M Z := fun w => (Returned (clock w), w).

(** [process.nextTick(function() {cb(err, data);})]. *)
Definition nextTick (t : tick) : M unit :=
  fun w => (Returned tt,
            mkWorld (CALLBACK_QUEUE w) (nextTickQueue w ++ [t]) (delivered w)
                    (timers w) (timerSeq w) (clock w) (fetchCalls w)).

(** [setTimeout(action, delay)]. *)
Definition setTimeout (a : timerAction) (delay : Z) : M timerId :=
  fun w => (Returned (timerSeq w),
            mkWorld (CALLBACK_QUEUE w) (nextTickQueue w) (delivered w)
                    (<[timerSeq w := mkTimer (clock w) delay a]> (timers w))
                    (S (timerSeq w)) (clock w) (fetchCalls w)).

(** [clearTimeout(handle)]. *)
Definition clearTimeout (t : timerId) : M unit :=
  fun w => (Returned tt,
            mkWorld (CALLBACK_QUEUE w) (nextTickQueue w) (delivered w)
                    (delete t (timers w)) (timerSeq w) (clock w) (fetchCalls w)).

(** Truthiness of an optional number: [undefined] and [0] are falsy. *)
Definition truthyNum (n : option Z) : bool :=
  match n with
  | Some z => negb (z =? 0)
  | None => false
  end.

(** [arr.forEach(f)]. *)
Fixpoint forEach {A} (l : list A) (f : A -> M unit) : M unit :=
  match l with
  | [] => ret tt
  | x :: l' => exec f x in forEach l' f
  end.

(** ** The module's functions *)

Module CallbackDataBus.

(** The length [sizeOfCallbackQueue] reads off the registry. *)
Definition queueSize (q : gmap string record) (key : string) : nat :=
  match q !! key with
  | Some r => length (callbacks r)
  | None => 0%nat
  end.

(** [sizeOfCallbackQueue(key)] *)
Definition sizeOfCallbackQueue (key : string) : M nat :=
  fun w => (Returned (queueSize (CALLBACK_QUEUE w) key), w).

(** [expiration === null || expiration > now]; [undefined > now] is false. *)
Definition notStale (e : expiry) (now : Z) : bool :=
  match e with
  | ExpNull => true
  | ExpAt t => now <? t
  | ExpAbsent => false
  end.

(** [cachedDataFor(key)]: the [results] object, or [null] as [None]. *)
Definition cachedDataFor (key : string) : M (option (jsval * jsval)) :=
  let* obj := lookupKey key in
  match obj with
  | Some r =>
      match results r with
      | Some res =>
          let* now := getTime in
          if notStale (expiration r) now then ret (Some res)
          else
            exec assignField key (set_results None) in
            exec assignField key (set_expiration ExpAbsent) in
            ret None
      | None => ret None
      end
  | None => ret None
  end.

(** [registerFetch(key, callback, forceUpdate)] *)
Definition registerFetch (key : string) (cb : callback) (forceUpdate : bool)
  : M bool :=
  let* cachedData := cachedDataFor key in
  match (if forceUpdate then None else cachedData) with
  | Some (err, data) =>
      exec nextTick (Tick cb err data) in
      ret true
  | None =>
      let* n := sizeOfCallbackQueue key in
      if (0 <? n)%nat then
        exec assignField key (fun r => set_callbacks (callbacks r ++ [cb]) r) in
        ret true
      else
        exec assignKey key (newRecord cb) in
        ret false
  end.

Definition noCallbacksMessage : string :=
  "Error in completeAction(callbackQueue) - completeAction called, but there are no registered callbacks: ".

(** [completeFetch(key, err, data, timeout)] *)
Definition completeFetch (key : string) (err data : jsval) (timeout : option Z)
  : M unit :=
  let* n := sizeOfCallbackQueue key in
  if (0 <? n)%nat then
    let* r := getRecord key in
    exec forEach (callbacks r) (fun savedCallback => nextTick (Tick savedCallback err data)) in
    exec assignField key (set_callbacks []) in
    let* r1 := getRecord key in
    exec (match fetchInterval r1 with
          | Some i =>
              if truthyNum (Some i) then
                let* t := setTimeout (TRefetch key) i in
                assignField key (set_fetchTimer (Some t))
              else ret tt
          | None => ret tt
          end) in
    match timeout with
    | Some d =>
        if truthyNum (Some d) then
          exec assignField key (set_results (Some (err, data))) in
          if 0 <? d then
            exec (let* _t := setTimeout (TExpire key) d in ret tt) in
            let* now := getTime in
            assignField key (set_expiration (ExpAt (now + d)))
          else
            assignField key (set_expiration ExpNull)
        else deleteKey key
    | None => deleteKey key
    end
  else
    throw (Thrown (noCallbacksMessage +:+ key)).

(** [expireCachedData(key)] *)
Definition expireCachedData (key : string) : M unit :=
  let* obj := lookupKey key in
  match obj with
  | Some r =>
      match results r with
      | Some _ => assignField key (set_results None)
      | None => ret tt
      end
  | None => ret tt
  end.

(** [dataPendingFor(key)] *)
Definition dataPendingFor (key : string) : M bool :=
  let* c := cachedDataFor key in
  match c with
  | Some _ => ret true
  | None =>
      let* n := sizeOfCallbackQueue key in
      ret (0 <? n)%nat
  end.

(** The closure [function(err, data) { completeFetch(key, err, data, -1); }]
    that [scheduleFetch] hands to the fetch function. *)
Definition completion (key : string) (err data : jsval) : M unit :=
  completeFetch key err data (Some (-1)).

(** Calling a fetch function with the completion callback for [key]. *)
Definition callFetchFunction (f : fetchFn) (key : string) : M unit :=
  exec (fun w => (Returned tt,
          mkWorld (CALLBACK_QUEUE w) (nextTickQueue w) (delivered w) (timers w)
                  (timerSeq w) (clock w) (fetchCalls w ++ [(f, key)]))) in
  match f with
  | FetchNow _ err data => completion key err data
  | FetchLater _ => ret tt
  end.

Definition pendingFetchMessage : string :=
  "Schedule Fetch: register returned true indicating a pending fetch".

(** [scheduleFetch(key, interval, fetchFunction)]; the timer closure of
    [completeFetch] may pass [undefined] for either argument. *)
Definition scheduleFetch (key : string) (interval : option Z)
    (fetchFunction_ : option fetchFn) : M bool :=
  let* n := sizeOfCallbackQueue key in
  if (0 <? n)%nat then ret false
  else
    let* registered := registerFetch key nullFn true in
    if registered then throw (Thrown pendingFetchMessage)
    else
      exec assignField key (set_fetchInterval interval) in
      exec assignField key (set_fetchFunction fetchFunction_) in
      let* r := getRecord key in
      exec (match fetchFunction r with
            | Some f => callFetchFunction f key
            | None => throw TypeError
            end) in
      ret true.

(** [cancelScheduleFetch(key)]: [false], or no [return] at all. *)
Definition cancelScheduleFetch (key : string) : M jsval :=
  let* n := sizeOfCallbackQueue key in
  if (0 <? n)%nat then ret (JBool false)
  else
    let* obj := lookupKey key in
    match obj with
    | Some r =>
        match fetchTimer r with
        | Some t =>
            exec clearTimeout t in
            exec deleteKey key in
            ret JUndefined
        | None => ret JUndefined
        end
    | None => ret JUndefined
    end.

End CallbackDataBus.

(** ** The event loop *)

Module EventLoop.
Import CallbackDataBus.

(** The oldest deferred call runs. *)
Definition runNextTick : M unit :=
  fun w => match nextTickQueue w with
           | [] => (Returned tt, w)
           | t :: rest =>
               (Returned tt,
                mkWorld (CALLBACK_QUEUE w) rest (delivered w ++ [t]) (timers w)
                        (timerSeq w) (clock w) (fetchCalls w))
           end.

(** The [n] oldest deferred calls run, in order. *)
Fixpoint runTicks (n : nat) : M unit :=
  match n with
  | O => ret tt
  | S n' => exec runNextTick in runTicks n'
  end.

(** The deferred calls queued so far all run. *)
Definition drainTicks : M unit :=
  fun w => runTicks (length (nextTickQueue w)) w.

(** Time passes. *)
Definition advanceClock (dt : Z) : M unit :=
  fun w => (Returned tt, set_clock (clock w + dt) w).

(** The body of a timer's closure. *)
Definition runTimerAction (a : timerAction) : M unit :=
  match a with
  | TExpire key => expireCachedData key
  | TRefetch key =>
      let* r := getRecord key in
      let* _b := scheduleFetch key (fetchInterval r) (fetchFunction r) in
      ret tt
  end.

(** An armed timer fires once its delay has run; before that, or when it
    was cleared, nothing happens. *)
Definition fireTimer (t : timerId) : M unit :=
  fun w => match timers w !! t with
           | Some e =>
               if timer_armedAt e + timer_delay e <=? clock w
               then (exec clearTimeout t in runTimerAction (timer_action e)) w
               else (Returned tt, w)
           | None => (Returned tt, w)
           end.

End EventLoop.

(** * Specification and proofs *)

Import CallbackDataBus EventLoop.

(** ** Observations on a world *)

(** The stored result of [key] when it is not stale at the world's clock:
    what [cachedDataFor] returns. *)
Definition liveResult (w : world) (key : string) : option (jsval * jsval) :=
  match CALLBACK_QUEUE w !! key with
  | Some r =>
      match results r with
      | Some res => if notStale (expiration r) (clock w) then Some res else None
      | None => None
      end
  | None => None
  end.

(** The world [cachedDataFor] leaves: a stale result is cleared together
    with its expiration, the record stays. *)
Definition clearStale (key : string) (w : world) : world :=
  match CALLBACK_QUEUE w !! key with
  | Some r =>
      match results r with
      | Some _ =>
          if notStale (expiration r) (clock w) then w
          else set_queue (<[key := set_expiration ExpAbsent (set_results None r)]>
                            (CALLBACK_QUEUE w)) w
      | None => w
      end
  | None => w
  end.

(** The deferred calls [completeFetch] queues for a list of waiters. *)
Definition notifications (cbs : list callback) (err data : jsval) : list tick :=
  map (fun cb => Tick cb err data) cbs.

Definition queueTicks (ts : list tick) (w : world) : world :=
  mkWorld (CALLBACK_QUEUE w) (nextTickQueue w ++ ts) (delivered w) (timers w)
          (timerSeq w) (clock w) (fetchCalls w).

(** The expiration [completeFetch] stores for a truthy [timeout]. *)
Definition storedExpiration (now d : Z) : expiry :=
  if 0 <? d then ExpAt (now + d) else ExpNull.

(** The handle of the expiration timer [completeFetch] arms on a record:
    the refetch timer, when there is one, is armed first. *)
Definition expireTimerId (r : record) (w : world) : timerId :=
  if truthyNum (fetchInterval r) then S (timerSeq w) else timerSeq w.

(** Whether [registerFetch] takes its first branch: no [forceUpdate] and
    [cachedDataFor] returned a result. *)
Definition cacheHit (key : string) (forceUpdate : bool) (w : world) : Prop :=
  forceUpdate = false
  /\ exists res, (cachedDataFor key w).1 = Returned (Some res).

(** A record holding a live result and an armed scheduled fetch, without
    waiters: the state a key is in between two scheduled fetches. *)
Definition scheduledRecord : record :=
  mkRecord [] ExpNull (Some 1000) (Some (FetchLater 5)) (Some 0%nat)
           (Some (JNull, JStr "AutoFetch number 1")).

(** The record [scheduleFetch] builds before it calls the fetch function. *)
Definition fetchingRecord (interval : option Z) (f : option fetchFn) : record :=
  mkRecord [nullFn] ExpAbsent interval f None None.

(** The world in which [scheduleFetch] calls the fetch function. *)
Definition fetchingWorld (key : string) (interval : option Z)
    (f : option fetchFn) (w : world) : world :=
  set_queue (<[key := fetchingRecord interval f]>
               (CALLBACK_QUEUE (clearStale key w)))
            (clearStale key w).

Definition logFetchCall (f : fetchFn) (key : string) (w : world) : world :=
  mkWorld (CALLBACK_QUEUE w) (nextTickQueue w) (delivered w) (timers w)
          (timerSeq w) (clock w) (fetchCalls w ++ [(f, key)]).

(** The world of the test on [key3] once its callback is registered, the
    fetch completed with a retention of one second, and, a second later, the
    expiration timer fired. *)
Definition afterExpiryTimer : world :=
  ((let* _own := registerFetch "key3" (UserCallback 1) false in
    exec completeFetch "key3" JNull (JStr "key3-data-goes-here") (Some 1000) in
    exec advanceClock 1000 in
    fireTimer 0%nat) initialWorld).2.

(** ** The registry invariant *)

(** A record carries a scheduled fetch. *)
Definition hasRefetch (r : record) : bool :=
  match fetchInterval r, fetchFunction r with
  | None, None => false
  | _, _ => true
  end.

(** A record has waiters, a result that is live at [now], or a scheduled
    fetch. *)
Definition recordInUse (now : Z) (r : record) : bool :=
  match callbacks r with [] => false | _ :: _ => true end
  || match results r with
     | Some _ => notStale (expiration r) now
     | None => false
     end
  || hasRefetch r.

Definition keyInUse (w : world) (key : string) : bool :=
  match CALLBACK_QUEUE w !! key with
  | Some r => recordInUse (clock w) r
  | None => false
  end.

(** A key has a record exactly when it has waiters, a live result or a
    scheduled fetch. *)
Definition registryInvariant (w : world) : Prop :=
  forall key, is_Some (CALLBACK_QUEUE w !! key) <-> keyInUse w key = true.

(** [w'] has no record out of use that [w] did not already have. *)
Definition keepsInUse (w w' : world) : Prop :=
  clock w' = clock w
  /\ forall k r',
       CALLBACK_QUEUE w' !! k = Some r' ->
       recordInUse (clock w) r' = true
       \/ exists r, CALLBACK_QUEUE w !! k = Some r
                    /\ (recordInUse (clock w) r = true ->
                        recordInUse (clock w) r' = true).

(** The world of the test on [key3] once its callback is registered, the
    fetch completed with a retention of one second, and the key read a
    second and a half later. *)
Definition afterLateRead : world :=
  ((let* _own := registerFetch "key3" (UserCallback 1) false in
    exec completeFetch "key3" JNull (JStr "key3-data-goes-here") (Some 1000) in
    exec advanceClock 1500 in
    dataPendingFor "key3") initialWorld).2.

(** ** Callers and the event loop as a whole *)

(** A caller registering a list of callbacks on one key, one
    [registerFetch(key, cb)] after the other; the values returned. *)
Fixpoint registerAll (key : string) (cbs : list callback) : M (list bool) :=
  match cbs with
  | [] => ret []
  | cb :: rest =>
      let* b := registerFetch key cb false in
      let* bs := registerAll key rest in
      ret (b :: bs)
  end.

(** What can happen to the registry: a call of an exported function, a call
    of the completion callback handed to a fetch function, or a turn of the
    event loop. *)
Inductive event : Type :=
  | CallRegisterFetch (key : string) (cb : callback) (forceUpdate : bool)
  | CallCompleteFetch (key : string) (err data : jsval) (timeout : option Z)
  | CallScheduleFetch (key : string) (interval : option Z) (f : option fetchFn)
  | CallCancelScheduleFetch (key : string)
  | CallCachedDataFor (key : string)
  | CallDataPendingFor (key : string)
  | CallCompletion (key : string) (err data : jsval)
  | TickRuns
  | TimerFires (t : timerId)
  | TimePasses (dt : Z).

(** The world after an event; an exception ends the call and leaves the
    world as it was when thrown. *)
Definition happen (e : event) (w : world) : world :=
  match e with
  | CallRegisterFetch key cb forceUpdate => (registerFetch key cb forceUpdate w).2
  | CallCompleteFetch key err data timeout => (completeFetch key err data timeout w).2
  | CallScheduleFetch key interval f => (scheduleFetch key interval f w).2
  | CallCancelScheduleFetch key => (cancelScheduleFetch key w).2
  | CallCachedDataFor key => (cachedDataFor key w).2
  | CallDataPendingFor key => (dataPendingFor key w).2
  | CallCompletion key err data => (completion key err data w).2
  | TickRuns => (runNextTick w).2
  | TimerFires t => (fireTimer t w).2
  | TimePasses dt => (advanceClock dt w).2
  end.

(** The world reached from the initial one by a sequence of events. *)
Definition history (es : list event) : world :=
  fold_left (fun w e => happen e w) es initialWorld.

(** A record has no waiters or no stored result, and a stored result comes
    with an expiration, [null] or an instant. *)
Definition soundRecord (r : record) : Prop :=
  (callbacks r = [] \/ results r = None)
  /\ (results r = None \/ expiration r <> ExpAbsent).

(** The world [scheduleFetch] leaves on a key without waiters when the
    fetch function completes at once with [(err, data)] and the interval is
    truthy: the result is stored for good and the refetch timer armed. *)
Definition refetchedWorld (key : string) (i : Z) (f : fetchFn)
    (err data : jsval) (w : world) : world :=
  mkWorld
    (<[key := mkRecord [] ExpNull (Some i) (Some f)
                (Some (timerSeq (clearStale key w))) (Some (err, data))]>
       (CALLBACK_QUEUE (clearStale key w)))
    (nextTickQueue (clearStale key w) ++ [Tick nullFn err data])
    (delivered (clearStale key w))
    (<[timerSeq (clearStale key w)
       := mkTimer (clock (clearStale key w)) i (TRefetch key)]>
       (timers (clearStale key w)))
    (S (timerSeq (clearStale key w)))
    (clock (clearStale key w))
    (fetchCalls (clearStale key w) ++ [(f, key)]).

(** The test on [key4], with the forced update it prepares: a result kept
    for one second, replaced half a second later by a forced fetch whose
    result is kept for five seconds; then another half second passes. *)
Definition afterForcedUpdate : world :=
  history
    [CallRegisterFetch "key4" (UserCallback 1) false;
     CallCompleteFetch "key4" JNull (JStr "key4-data-goes-here") (Some 1000);
     TimePasses 500;
     CallRegisterFetch "key4" (UserCallback 2) true;
     CallCompleteFetch "key4" JNull (JStr "different-data-for-key4") (Some 5000);
     TimePasses 500].

(** A scheduled fetch on [key5], then a forced update by a caller who keeps
    its result for five seconds; a second after the scheduling. *)
Definition afterForcedUpdateOfScheduled : world :=
  history
    [CallScheduleFetch "key5" (Some 1000)
       (Some (FetchNow 5 JNull (JStr "AutoFetch number 1")));
     CallRegisterFetch "key5" (UserCallback 9) true;
     CallCompleteFetch "key5" JNull (JStr "forced") (Some 5000);
     TimePasses 1000].

(** Every record of the registry is sound. *)
Definition registrySound (w : world) : Prop :=
  map_Forall (fun _ r => soundRecord r) (CALLBACK_QUEUE w).

(** ** Symbolic execution helpers *)

Ltac unfold_m :=
  repeat (progress (unfold bind, ret, throw, lookupKey, getRecord, assignField,
    assignKey, deleteKey, getTime, nextTick, setTimeout, clearTimeout,
    sizeOfCallbackQueue in *)).

Ltac unfold_set :=
  unfold set_callbacks, set_expiration, set_fetchInterval, set_fetchFunction,
    set_fetchTimer, set_results, set_queue, set_clock in *.

Ltac timers_case H :=
  repeat match type of H with
    | <[?a := _]> _ !! ?t = Some _ =>
        destruct (decide (t = a)) as [->|?];
        [rewrite lookup_insert_eq in H; injection H as <-
        |rewrite lookup_insert_ne in H by done]
    end.

Lemma world_eta (w : world) :
  mkWorld (CALLBACK_QUEUE w) (nextTickQueue w) (delivered w) (timers w)
          (timerSeq w) (clock w) (fetchCalls w) = w.
Proof. by destruct w. Qed.

Lemma queueSize_lookup q key r :
  q !! key = Some r -> queueSize q key = length (callbacks r).
Proof. intros H. unfold queueSize. by rewrite H. Qed.

Lemma queueSize_pos q key :
  (0 < queueSize q key)%nat ->
  exists r, q !! key = Some r /\ callbacks r <> [].
Proof.
  unfold queueSize. destruct (q !! key) as [r|] eqn:E; [|lia].
  intros Hlen. exists r. split; [done|]. intros Hnil. rewrite Hnil in Hlen.
  simpl in Hlen. lia.
Qed.

Lemma forEach_nextTick cbs err data w :
  forEach cbs (fun cb => nextTick (Tick cb err data)) w
  = (Returned tt, queueTicks (notifications cbs err data) w).
Proof.
  revert w. induction cbs as [|cb cbs IH]; intros w.
  - simpl. unfold ret, queueTicks. simpl. rewrite app_nil_r. by rewrite world_eta.
  - simpl. unfold bind at 1. unfold nextTick at 1. rewrite IH.
    unfold queueTicks. simpl. by rewrite <- app_assoc.
Qed.

(** [cachedDataFor] always returns, with [liveResult], leaving [clearStale]. *)
Lemma cachedDataFor_eq key w :
  cachedDataFor key w = (Returned (liveResult w key), clearStale key w).
Proof.
  unfold cachedDataFor, liveResult, clearStale. unfold_m.
  destruct (CALLBACK_QUEUE w !! key) as [r|] eqn:E; [|done].
  destruct (results r) as [res|] eqn:Er; [|done].
  destruct (notStale (expiration r) (clock w)); [done|].
  rewrite E. simpl. rewrite lookup_insert_eq. unfold set_queue. simpl.
  by rewrite insert_insert_eq.
Qed.

Lemma clearStale_live key w res :
  liveResult w key = Some res -> clearStale key w = w.
Proof.
  unfold liveResult, clearStale.
  destruct (CALLBACK_QUEUE w !! key) as [r|]; [|done].
  destruct (results r); [|done].
  by destruct (notStale (expiration r) (clock w)).
Qed.

Lemma clearStale_queueSize key key' w :
  queueSize (CALLBACK_QUEUE (clearStale key w)) key'
  = queueSize (CALLBACK_QUEUE w) key'.
Proof.
  unfold clearStale.
  destruct (CALLBACK_QUEUE w !! key) as [r|] eqn:E; [|done].
  destruct (results r); [|done].
  destruct (notStale (expiration r) (clock w)); [done|].
  simpl. unfold queueSize. destruct (decide (key = key')) as [->|Hne].
  - rewrite lookup_insert_eq, E. done.
  - by rewrite lookup_insert_ne.
Qed.

(** Reading the cache changes neither the waiters of a record nor anything
    outside the registry. *)
Lemma clearStale_lookup key w r :
  CALLBACK_QUEUE w !! key = Some r ->
  exists r1, CALLBACK_QUEUE (clearStale key w) !! key = Some r1
             /\ callbacks r1 = callbacks r
             /\ fetchInterval r1 = fetchInterval r
             /\ fetchFunction r1 = fetchFunction r
             /\ fetchTimer r1 = fetchTimer r.
Proof.
  intros E. unfold clearStale. rewrite E.
  destruct (results r); [|by exists r].
  destruct (notStale (expiration r) (clock w)); [by exists r|].
  simpl. rewrite lookup_insert_eq. by eexists.
Qed.

Lemma clearStale_lookup_None key w :
  CALLBACK_QUEUE w !! key = None ->
  clearStale key w = w.
Proof. intros E. unfold clearStale. by rewrite E. Qed.

Lemma clearStale_frame key w :
  nextTickQueue (clearStale key w) = nextTickQueue w
  /\ delivered (clearStale key w) = delivered w
  /\ timers (clearStale key w) = timers w
  /\ timerSeq (clearStale key w) = timerSeq w
  /\ clock (clearStale key w) = clock w
  /\ fetchCalls (clearStale key w) = fetchCalls w.
Proof.
  unfold clearStale.
  destruct (CALLBACK_QUEUE w !! key) as [r|]; [|done].
  destruct (results r); [|done].
  by destruct (notStale (expiration r) (clock w)).
Qed.

(** The three branches of [registerFetch], one lemma each. *)
Lemma registerFetch_cached key cb w err data :
  liveResult w key = Some (err, data) ->
  registerFetch key cb false w = (Returned true, queueTicks [Tick cb err data] w).
Proof.
  intros Hlive. unfold registerFetch. unfold bind at 1.
  rewrite cachedDataFor_eq, Hlive. rewrite (clearStale_live _ _ _ Hlive).
  by unfold_m.
Qed.

Lemma registerFetch_join key cb (forceUpdate : bool) w :
  (if forceUpdate then None else liveResult w key) = None ->
  (0 < queueSize (CALLBACK_QUEUE w) key)%nat ->
  exists r1,
    CALLBACK_QUEUE (clearStale key w) !! key = Some r1
    /\ registerFetch key cb forceUpdate w
       = (Returned true,
          set_queue (<[key := set_callbacks (callbacks r1 ++ [cb]) r1]>
                       (CALLBACK_QUEUE (clearStale key w)))
                    (clearStale key w)).
Proof.
  intros Hmiss Hpos.
  destruct (queueSize_pos _ _ Hpos) as (r & E & _).
  destruct (clearStale_lookup _ _ _ E) as (r1 & E1 & _).
  exists r1. split; [done|].
  unfold registerFetch. unfold bind at 1. rewrite cachedDataFor_eq, Hmiss.
  unfold bind at 1. unfold sizeOfCallbackQueue at 1.
  rewrite clearStale_queueSize.
  apply Nat.ltb_lt in Hpos. rewrite Hpos.
  unfold_m. by rewrite E1.
Qed.

Lemma registerFetch_own key cb (forceUpdate : bool) w :
  (if forceUpdate then None else liveResult w key) = None ->
  queueSize (CALLBACK_QUEUE w) key = 0%nat ->
  registerFetch key cb forceUpdate w
  = (Returned false,
     set_queue (<[key := newRecord cb]> (CALLBACK_QUEUE (clearStale key w)))
               (clearStale key w)).
Proof.
  intros Hmiss Hzero.
  unfold registerFetch. unfold bind at 1. rewrite cachedDataFor_eq, Hmiss.
  unfold bind at 1. unfold sizeOfCallbackQueue at 1.
  rewrite clearStale_queueSize, Hzero. simpl. by unfold_m.
Qed.

(** [completeFetch] on a key without waiters: the exception, nothing else. *)
Lemma completeFetch_no_waiters key err data timeout w :
  queueSize (CALLBACK_QUEUE w) key = 0%nat ->
  completeFetch key err data timeout w
  = (Raised (Thrown (noCallbacksMessage +:+ key)), w).
Proof.
  intros Hz. unfold completeFetch. unfold bind at 1.
  unfold sizeOfCallbackQueue at 1. rewrite Hz. simpl. done.
Qed.

(** [completeFetch] on a key with waiters: it returns, and this is the
    world it leaves. *)
Lemma completeFetch_waiters key err data timeout w r :
  CALLBACK_QUEUE w !! key = Some r ->
  callbacks r <> [] ->
  exists w',
    completeFetch key err data timeout w = (Returned tt, w')
    /\ nextTickQueue w' = nextTickQueue w ++ notifications (callbacks r) err data
    /\ delivered w' = delivered w
    /\ clock w' = clock w
    /\ fetchCalls w' = fetchCalls w
    /\ (forall k, k <> key -> CALLBACK_QUEUE w' !! k = CALLBACK_QUEUE w !! k)
    /\ (truthyNum timeout = false -> CALLBACK_QUEUE w' !! key = None)
    /\ (forall d, timeout = Some d -> d <> 0 ->
        CALLBACK_QUEUE w' !! key
        = Some (mkRecord [] (storedExpiration (clock w) d) (fetchInterval r)
                  (fetchFunction r)
                  (if truthyNum (fetchInterval r) then Some (timerSeq w)
                   else fetchTimer r)
                  (Some (err, data))))
    /\ (forall t e, timers w' !! t = Some e ->
        timers w !! t = Some e
        \/ (exists i, fetchInterval r = Some i /\ i <> 0
                      /\ e = mkTimer (clock w) i (TRefetch key))
        \/ (exists d, timeout = Some d /\ 0 < d
                      /\ e = mkTimer (clock w) d (TExpire key)))
    /\ (forall d, timeout = Some d -> 0 < d ->
        timers w' !! expireTimerId r w
        = Some (mkTimer (clock w) d (TExpire key))).
Proof.
  intros E Hne.
  assert (Hpos : (0 <? queueSize (CALLBACK_QUEUE w) key)%nat = true).
  { apply Nat.ltb_lt. rewrite (queueSize_lookup _ _ _ E).
    destruct (callbacks r); [done | simpl; lia]. }
  unfold completeFetch. unfold bind at 1. unfold sizeOfCallbackQueue at 1.
  rewrite Hpos. unfold bind at 1. unfold getRecord at 1. rewrite E.
  unfold bind at 1. rewrite forEach_nextTick.
  unfold storedExpiration, expireTimerId.
  destruct w as [q ticks dl tm sq now fc]. simpl in *.
  destruct (fetchInterval r) as [i|] eqn:Ei; [destruct (i =? 0) eqn:Hi0|];
    (destruct timeout as [d|];
     [destruct (d =? 0) eqn:Hd0; [|destruct (0 <? d) eqn:Hdpos]|]);
    unfold_m; simpl;
    repeat (rewrite ?E, ?Ei, ?Hi0, ?Hd0, ?Hdpos, ?lookup_insert_eq,
              ?insert_insert_eq; simpl);
    (eexists; split; [reflexivity|]; simpl).
  all: repeat apply conj; try done;
    try (intros k Hk; by rewrite ?lookup_delete_ne, ?lookup_insert_ne by done);
    try (intros _; by rewrite lookup_delete_eq);
    try (intros d' [= <-] Hd';
         first [lia | rewrite ?Hdpos, ?lookup_insert_eq; unfold_set; simpl;
                      by rewrite ?Ei]);
    try (intros t e Ht; timers_case Ht; solve [eauto 10 with lia]).
Qed.

Lemma cacheHit_miss key (forceUpdate : bool) w :
  ~ cacheHit key forceUpdate w ->
  (if forceUpdate then None else liveResult w key) = None.
Proof.
  intros Hno. destruct forceUpdate; [done|].
  destruct (liveResult w key) as [res|] eqn:El; [|done].
  exfalso. apply Hno. split; [done|]. exists res.
  by rewrite cachedDataFor_eq, El.
Qed.

Lemma runTicks_eq n w :
  runTicks n w
  = (Returned tt,
     mkWorld (CALLBACK_QUEUE w) (drop n (nextTickQueue w))
             (delivered w ++ take n (nextTickQueue w)) (timers w)
             (timerSeq w) (clock w) (fetchCalls w)).
Proof.
  revert w. induction n as [|n IH]; intros w.
  - simpl. unfold ret. rewrite drop_0, app_nil_r. by rewrite world_eta.
  - simpl. unfold bind, runNextTick.
    destruct w as [q ticks dl tm sq now fc]. simpl.
    destruct ticks as [|t ticks]; rewrite IH; simpl.
    + by rewrite drop_nil, take_nil.
    + by rewrite <- app_assoc.
Qed.

Lemma drainTicks_eq w :
  drainTicks w
  = (Returned tt,
     mkWorld (CALLBACK_QUEUE w) [] (delivered w ++ nextTickQueue w) (timers w)
             (timerSeq w) (clock w) (fetchCalls w)).
Proof.
  unfold drainTicks. rewrite runTicks_eq.
  by rewrite drop_all, firstn_all.
Qed.

(** The second and third branches, as seen from outside. *)
Lemma registerFetch_join_facts key cb (forceUpdate : bool) w :
  (if forceUpdate then None else liveResult w key) = None ->
  (0 < queueSize (CALLBACK_QUEUE w) key)%nat ->
  exists r r',
    CALLBACK_QUEUE w !! key = Some r
    /\ (registerFetch key cb forceUpdate w).1 = Returned true
    /\ CALLBACK_QUEUE (registerFetch key cb forceUpdate w).2 !! key = Some r'
    /\ callbacks r' = callbacks r ++ [cb]
    /\ nextTickQueue (registerFetch key cb forceUpdate w).2 = nextTickQueue w.
Proof.
  intros Hno Hpos.
  destruct (queueSize_pos _ _ Hpos) as (r & E & _).
  destruct (registerFetch_join key cb forceUpdate w Hno Hpos) as (r1 & E1 & ->).
  destruct (clearStale_lookup _ _ _ E) as (r1' & E1' & Hcb & _).
  rewrite E1 in E1'. injection E1' as <-.
  exists r, (set_callbacks (callbacks r1 ++ [cb]) r1). simpl.
  rewrite lookup_insert_eq. repeat split; try done.
  - simpl. by rewrite Hcb.
  - apply clearStale_frame.
Qed.

Lemma registerFetch_own_facts key cb (forceUpdate : bool) w :
  (if forceUpdate then None else liveResult w key) = None ->
  queueSize (CALLBACK_QUEUE w) key = 0%nat ->
  (registerFetch key cb forceUpdate w).1 = Returned false
  /\ CALLBACK_QUEUE (registerFetch key cb forceUpdate w).2 !! key
     = Some (newRecord cb)
  /\ nextTickQueue (registerFetch key cb forceUpdate w).2 = nextTickQueue w.
Proof.
  intros Hno Hz.
  rewrite (registerFetch_own key cb forceUpdate w Hno Hz). simpl.
  rewrite lookup_insert_eq. repeat split; try done. apply clearStale_frame.
Qed.

(** ** The claims *)

(** C1.  [registerFetch(key, callback, forceUpdate)] has three outcomes.
    When [forceUpdate] is false and [cachedDataFor(key)] finds a live result
    [(err, data)], it returns [true] and defers [callback(err, data)],
    changing nothing else.  Otherwise, when the key has waiters, it returns
    [true], the callback is appended to them and nothing is deferred.
    Otherwise it returns [false] and the key's record is a new one whose
    waiters are [[callback]]. *)
Theorem registerFetch_three_branches key cb (forceUpdate : bool) w :
  (forall err data,
      forceUpdate = false ->
      (cachedDataFor key w).1 = Returned (Some (err, data)) ->
      registerFetch key cb forceUpdate w
      = (Returned true, queueTicks [Tick cb err data] w))
  /\ (~ cacheHit key forceUpdate w ->
      (0 < queueSize (CALLBACK_QUEUE w) key)%nat ->
      exists r r',
        CALLBACK_QUEUE w !! key = Some r
        /\ (registerFetch key cb forceUpdate w).1 = Returned true
        /\ CALLBACK_QUEUE (registerFetch key cb forceUpdate w).2 !! key = Some r'
        /\ callbacks r' = callbacks r ++ [cb]
        /\ nextTickQueue (registerFetch key cb forceUpdate w).2 = nextTickQueue w)
  /\ (~ cacheHit key forceUpdate w ->
      queueSize (CALLBACK_QUEUE w) key = 0%nat ->
      (registerFetch key cb forceUpdate w).1 = Returned false
      /\ CALLBACK_QUEUE (registerFetch key cb forceUpdate w).2 !! key
         = Some (newRecord cb)
      /\ callbacks (newRecord cb) = [cb]
      /\ nextTickQueue (registerFetch key cb forceUpdate w).2 = nextTickQueue w).
Proof.
  split; [|split].
  - intros err data -> Hc. rewrite cachedDataFor_eq in Hc. simpl in Hc.
    injection Hc as Hc. by apply registerFetch_cached.
  - intros Hno Hpos. apply cacheHit_miss in Hno.
    by apply registerFetch_join_facts.
  - intros Hno Hz. apply cacheHit_miss in Hno.
    destruct (registerFetch_own_facts key cb forceUpdate w Hno Hz)
      as (? & ? & ?).
    by repeat split.
Qed.

Lemma registerFetch_three_branches_witness :
  (registerFetch "key1" (UserCallback 1) false initialWorld).1 = Returned false
  /\ (registerFetch "key1" (UserCallback 2) false
        (set_queue {[ "key1" := newRecord (UserCallback 1) ]} initialWorld)).1
     = Returned true
  /\ registerFetch "key3" (UserCallback 4) false
       (set_queue {[ "key3" := mkRecord [] (ExpAt 1000) None None None
                                (Some (JNull, JStr "key3-data-goes-here")) ]}
          initialWorld)
     = (Returned true,
        queueTicks [Tick (UserCallback 4) JNull (JStr "key3-data-goes-here")]
          (set_queue {[ "key3" := mkRecord [] (ExpAt 1000) None None None
                                   (Some (JNull, JStr "key3-data-goes-here")) ]}
             initialWorld)).
Proof.
  split; [|split].
  - pose proof (registerFetch_three_branches "key1" (UserCallback 1) false
      initialWorld) as (_ & _ & Hown).
    apply Hown.
    + intros [_ [res Hres]]. vm_compute in Hres. discriminate Hres.
    + reflexivity.
  - pose proof (registerFetch_three_branches "key1" (UserCallback 2) false
      (set_queue {[ "key1" := newRecord (UserCallback 1) ]} initialWorld))
      as (_ & Hjoin & _).
    destruct Hjoin as (r & r' & _ & Hret & _).
    + intros [_ [res Hres]]. vm_compute in Hres. discriminate Hres.
    + vm_compute. lia.
    + exact Hret.
  - pose proof (registerFetch_three_branches "key3" (UserCallback 4) false
      (set_queue {[ "key3" := mkRecord [] (ExpAt 1000) None None None
                                (Some (JNull, JStr "key3-data-goes-here")) ]}
         initialWorld)) as (Hhit & _).
    apply Hhit; reflexivity.
Defined.

(** C2.  [completeFetch(key, err, data, timeout)] throws exactly when the key
    has no waiters; what it throws is then the message ending in the key, and
    the world is the one it was called in. *)
Theorem completeFetch_throws_iff_no_waiters key err data timeout w :
  ((exists e, (completeFetch key err data timeout w).1 = Raised e)
   <-> queueSize (CALLBACK_QUEUE w) key = 0%nat)
  /\ (forall e,
        (completeFetch key err data timeout w).1 = Raised e ->
        e = Thrown (noCallbacksMessage +:+ key)
        /\ (completeFetch key err data timeout w).2 = w).
Proof.
  assert (Hcases : queueSize (CALLBACK_QUEUE w) key = 0%nat
                   \/ (0 < queueSize (CALLBACK_QUEUE w) key)%nat) by lia.
  destruct Hcases as [Hz|Hpos].
  - rewrite (completeFetch_no_waiters _ _ _ _ _ Hz). simpl. split.
    + split; [done|]. intros _. by eexists.
    + by intros e [= <-].
  - destruct (queueSize_pos _ _ Hpos) as (r & E & Hne).
    destruct (completeFetch_waiters key err data timeout w r E Hne)
      as (w' & -> & _).
    simpl. split.
    + split; [intros [e He]; discriminate He | lia].
    + intros e He. discriminate He.
Qed.

Lemma completeFetch_throws_iff_no_waiters_witness :
  completeFetch "key1" JNull (JStr "data-goes-here") None initialWorld
  = (Raised (Thrown (noCallbacksMessage +:+ "key1")), initialWorld).
Proof.
  pose proof (completeFetch_throws_iff_no_waiters "key1" JNull
                (JStr "data-goes-here") None initialWorld) as [[_ Hthrows] Hwhat].
  destruct (Hthrows eq_refl) as [e He].
  destruct (Hwhat e He) as [-> Hw].
  destruct (completeFetch "key1" JNull (JStr "data-goes-here") None initialWorld)
    as [o w'].
  simpl in He, Hw. by rewrite He, Hw.
Defined.

(** C3.  On a key with waiters, [completeFetch(key, err, data, timeout)]
    returns having deferred one call [cb(err, data)] per waiter, in the order
    the waiters registered, behind the calls deferred earlier.  No callback
    has run when it returns, and the key has no waiters then; once the
    deferred calls run, each waiter has been called once, in that order. *)
Theorem completeFetch_notifies_in_order key err data timeout w :
  (0 < queueSize (CALLBACK_QUEUE w) key)%nat ->
  exists r w' w'',
    CALLBACK_QUEUE w !! key = Some r
    /\ completeFetch key err data timeout w = (Returned tt, w')
    /\ nextTickQueue w'
       = nextTickQueue w ++ map (fun cb => Tick cb err data) (callbacks r)
    /\ delivered w' = delivered w
    /\ queueSize (CALLBACK_QUEUE w') key = 0%nat
    /\ drainTicks w' = (Returned tt, w'')
    /\ delivered w''
       = delivered w ++ nextTickQueue w
         ++ map (fun cb => Tick cb err data) (callbacks r)
    /\ nextTickQueue w'' = []
    /\ queueSize (CALLBACK_QUEUE w'') key = 0%nat.
Proof.
  intros Hpos. destruct (queueSize_pos _ _ Hpos) as (r & E & Hne).
  destruct (completeFetch_waiters key err data timeout w r E Hne)
    as (w' & Hrun & Hticks & Hdl & _ & _ & _ & Hdel & Hkeep & _).
  assert (Hsize : queueSize (CALLBACK_QUEUE w') key = 0%nat).
  { unfold queueSize. destruct timeout as [d|].
    - destruct (decide (d = 0)) as [->|Hd].
      + by rewrite Hdel.
      + by rewrite (Hkeep d eq_refl Hd).
    - by rewrite Hdel. }
  exists r, w'. eexists. split; [done|]. split; [done|].
  split; [done|]. split; [done|]. split; [done|].
  split; [apply drainTicks_eq|]. simpl.
  by rewrite Hdl, Hticks.
Qed.

Lemma completeFetch_notifies_in_order_witness :
  exists w',
    completeFetch "key1" JNull (JStr "data-goes-here") None
      (set_queue {[ "key1" := mkRecord [UserCallback 1; UserCallback 2]
                                ExpAbsent None None None None ]} initialWorld)
    = (Returned tt, w')
    /\ nextTickQueue w'
       = [Tick (UserCallback 1) JNull (JStr "data-goes-here");
          Tick (UserCallback 2) JNull (JStr "data-goes-here")]
    /\ delivered w' = [].
Proof.
  destruct (completeFetch_notifies_in_order "key1" JNull (JStr "data-goes-here")
              None
              (set_queue {[ "key1" := mkRecord [UserCallback 1; UserCallback 2]
                                        ExpAbsent None None None None ]}
                 initialWorld))
    as (r & w' & w'' & E & Hrun & Hticks & Hdl & _).
  - vm_compute. lia.
  - exists w'. vm_compute in E. injection E as <-.
    split; [exact Hrun|]. split; [exact Hticks|exact Hdl].
Defined.

(** C5.  With [forceUpdate] true, [registerFetch] never answers from the
    cache: nothing is deferred.  On a key without waiters it returns [false],
    whatever result is stored for the key; on a key with waiters it returns
    [true] and the callback is appended to them. *)
Theorem registerFetch_force_skips_cache key cb w :
  nextTickQueue (registerFetch key cb true w).2 = nextTickQueue w
  /\ (queueSize (CALLBACK_QUEUE w) key = 0%nat ->
      (registerFetch key cb true w).1 = Returned false
      /\ exists r', CALLBACK_QUEUE (registerFetch key cb true w).2 !! key = Some r'
                    /\ callbacks r' = [cb])
  /\ ((0 < queueSize (CALLBACK_QUEUE w) key)%nat ->
      exists r r',
        CALLBACK_QUEUE w !! key = Some r
        /\ (registerFetch key cb true w).1 = Returned true
        /\ CALLBACK_QUEUE (registerFetch key cb true w).2 !! key = Some r'
        /\ callbacks r' = callbacks r ++ [cb]).
Proof.
  split; [|split].
  - assert (Hcases : queueSize (CALLBACK_QUEUE w) key = 0%nat
                     \/ (0 < queueSize (CALLBACK_QUEUE w) key)%nat) by lia.
    destruct Hcases as [Hz|Hpos].
    + by destruct (registerFetch_own_facts key cb true w eq_refl Hz) as (_ & _ & ?).
    + by destruct (registerFetch_join_facts key cb true w eq_refl Hpos)
        as (? & ? & _ & _ & _ & _ & ?).
  - intros Hz.
    destruct (registerFetch_own_facts key cb true w eq_refl Hz) as (? & ? & _).
    split; [done|]. by exists (newRecord cb).
  - intros Hpos.
    destruct (registerFetch_join_facts key cb true w eq_refl Hpos)
      as (r & r' & ? & ? & ? & ? & _).
    by exists r, r'.
Qed.

Lemma registerFetch_force_skips_cache_witness :
  liveResult (set_queue {[ "key5" := scheduledRecord ]} initialWorld) "key5"
  = Some (JNull, JStr "AutoFetch number 1")
  /\ (registerFetch "key5" (UserCallback 9) true
        (set_queue {[ "key5" := scheduledRecord ]} initialWorld)).1
     = Returned false
  /\ (registerFetch "key1" (UserCallback 2) true
        (set_queue {[ "key1" := newRecord (UserCallback 1) ]} initialWorld)).1
     = Returned true.
Proof.
  split; [reflexivity|]. split.
  - pose proof (registerFetch_force_skips_cache "key5" (UserCallback 9)
      (set_queue {[ "key5" := scheduledRecord ]} initialWorld)) as (_ & Hown & _).
    destruct Hown as [Hret _]; [reflexivity | exact Hret].
  - pose proof (registerFetch_force_skips_cache "key1" (UserCallback 2)
      (set_queue {[ "key1" := newRecord (UserCallback 1) ]} initialWorld))
      as (_ & _ & Hjoin).
    destruct Hjoin as (r & r' & _ & Hret & _); [vm_compute; lia | exact Hret].
Defined.

(** C10.  Whenever [registerFetch] returns [false], the key's entry is a
    record made anew: its waiters are [[callback]] and it has no result, no
    expiration, no fetch interval, no fetch function and no timer handle,
    whatever the entry held before.  So a registration with [forceUpdate] on
    a key without waiters returns [false] and drops the stored result and the
    scheduled-fetch properties of the record that was there. *)
Theorem registerFetch_false_replaces_record key cb (forceUpdate : bool) w :
  ((registerFetch key cb forceUpdate w).1 = Returned false ->
   CALLBACK_QUEUE (registerFetch key cb forceUpdate w).2 !! key
   = Some (mkRecord [cb] ExpAbsent None None None None))
  /\ (forall r,
        CALLBACK_QUEUE w !! key = Some r ->
        callbacks r = [] ->
        (registerFetch key cb true w).1 = Returned false
        /\ CALLBACK_QUEUE (registerFetch key cb true w).2 !! key
           = Some (mkRecord [cb] ExpAbsent None None None None)).
Proof.
  split.
  - intros Hret.
    destruct (if forceUpdate then None else liveResult w key)
      as [[err data]|] eqn:Hc.
    + destruct forceUpdate; [done|].
      rewrite (registerFetch_cached _ cb _ _ _ Hc) in Hret. discriminate Hret.
    + assert (Hcases : queueSize (CALLBACK_QUEUE w) key = 0%nat
                       \/ (0 < queueSize (CALLBACK_QUEUE w) key)%nat) by lia.
      destruct Hcases as [Hz|Hpos].
      * by destruct (registerFetch_own_facts key cb forceUpdate w Hc Hz)
          as (_ & ? & _).
      * destruct (registerFetch_join_facts key cb forceUpdate w Hc Hpos)
          as (? & ? & _ & Htrue & _).
        rewrite Htrue in Hret. discriminate Hret.
  - intros r E Hnil.
    assert (Hz : queueSize (CALLBACK_QUEUE w) key = 0%nat).
    { rewrite (queueSize_lookup _ _ _ E). by rewrite Hnil. }
    by destruct (registerFetch_own_facts key cb true w eq_refl Hz) as (? & ? & _).
Qed.

Lemma registerFetch_false_replaces_record_witness :
  CALLBACK_QUEUE
    (registerFetch "key5" (UserCallback 9) true
       (set_queue {[ "key5" := scheduledRecord ]} initialWorld)).2 !! "key5"
  = Some (mkRecord [UserCallback 9] ExpAbsent None None None None)
  /\ CALLBACK_QUEUE
       (registerFetch "key1" (UserCallback 1) false initialWorld).2 !! "key1"
     = Some (mkRecord [UserCallback 1] ExpAbsent None None None None).
Proof.
  split.
  - pose proof (registerFetch_false_replaces_record "key5" (UserCallback 9) true
      (set_queue {[ "key5" := scheduledRecord ]} initialWorld)) as [_ Hforce].
    destruct (Hforce scheduledRecord) as [_ Hrec];
      [reflexivity | reflexivity | exact Hrec].
  - pose proof (registerFetch_false_replaces_record "key1" (UserCallback 1) false
      initialWorld) as [Hfalse _].
    apply Hfalse. reflexivity.
Defined.

(** A negative [timeout] keeps the result for good: it is stored with a
    [null] expiration, no expiration timer is armed, and [cachedDataFor]
    returns it at any later time. *)
Lemma completeFetch_negative_timeout_keeps key err data d w :
  d < 0 ->
  (0 < queueSize (CALLBACK_QUEUE w) key)%nat ->
  exists w' r',
    completeFetch key err data (Some d) w = (Returned tt, w')
    /\ CALLBACK_QUEUE w' !! key = Some r'
    /\ results r' = Some (err, data)
    /\ expiration r' = ExpNull
    /\ (forall t e, timers w' !! t = Some e ->
                    timer_action e = TExpire key -> timers w !! t = Some e)
    /\ (forall now,
          cachedDataFor key (set_clock now w')
          = (Returned (Some (err, data)), set_clock now w')).
Proof.
  intros Hd Hpos. destruct (queueSize_pos _ _ Hpos) as (r & E & Hne).
  destruct (completeFetch_waiters key err data (Some d) w r E Hne)
    as (w' & Hrun & _ & _ & _ & _ & _ & _ & Hkeep & Htimers & _).
  assert (Hd0 : d <> 0) by lia.
  specialize (Hkeep d eq_refl Hd0).
  assert (Hexp : storedExpiration (clock w) d = ExpNull).
  { unfold storedExpiration. destruct (0 <? d) eqn:Hlt; [lia | done]. }
  rewrite Hexp in Hkeep.
  exists w'. eexists. split; [done|]. split; [exact Hkeep|].
  split; [done|]. split; [done|]. split.
  - intros t e Ht Hact. destruct (Htimers t e Ht) as [?|[H|H]]; [done| |].
    + destruct H as (i & _ & _ & ->). discriminate Hact.
    + destruct H as (d' & [= <-] & ? & _). lia.
  - intros now. rewrite cachedDataFor_eq.
    unfold liveResult, clearStale. simpl. by rewrite Hkeep.
Qed.

(** C4.  What the code does with a [timeout] of zero: [0] is falsy, so
    [completeFetch(key, err, data, 0)] on a key with waiters takes the branch
    of the omitted timeout.  The key's record is deleted, nothing is stored,
    and [cachedDataFor(key)] returns [null] right after. *)
Theorem completeFetch_zero_timeout_deletes key err data w :
  (0 < queueSize (CALLBACK_QUEUE w) key)%nat ->
  exists w',
    completeFetch key err data (Some 0) w = (Returned tt, w')
    /\ CALLBACK_QUEUE w' !! key = None
    /\ cachedDataFor key w' = (Returned None, w')
    /\ completeFetch key err data None w = (Returned tt, w').
Proof.
  intros Hpos. destruct (queueSize_pos _ _ Hpos) as (r & E & Hne).
  destruct (completeFetch_waiters key err data (Some 0) w r E Hne)
    as (w' & Hrun & _ & _ & _ & _ & _ & Hdel & _).
  specialize (Hdel eq_refl).
  exists w'. split; [done|]. split; [done|]. split.
  - rewrite cachedDataFor_eq. unfold liveResult.
    rewrite Hdel. by rewrite clearStale_lookup_None.
  - rewrite <- Hrun. unfold completeFetch. reflexivity.
Qed.

Lemma completeFetch_zero_timeout_deletes_witness :
  exists w',
    completeFetch "key3" JNull (JStr "key3-data-goes-here") (Some 0)
      (set_queue {[ "key3" := newRecord (UserCallback 1) ]} initialWorld)
    = (Returned tt, w')
    /\ CALLBACK_QUEUE w' !! "key3" = None
    /\ cachedDataFor "key3" w' = (Returned None, w').
Proof.
  destruct (completeFetch_zero_timeout_deletes "key3" JNull
              (JStr "key3-data-goes-here")
              (set_queue {[ "key3" := newRecord (UserCallback 1) ]} initialWorld))
    as (w' & Hrun & Hdel & Hread & _).
  - vm_compute. lia.
  - exists w'. split; [exact Hrun|]. split; [exact Hdel | exact Hread].
Defined.

Lemma cancelScheduleFetch_eq key w :
  cancelScheduleFetch key w
  = if (0 <? queueSize (CALLBACK_QUEUE w) key)%nat
    then (Returned (JBool false), w)
    else match CALLBACK_QUEUE w !! key with
         | Some r =>
             match fetchTimer r with
             | Some t =>
                 (Returned JUndefined,
                  mkWorld (delete key (CALLBACK_QUEUE w)) (nextTickQueue w)
                          (delivered w) (delete t (timers w)) (timerSeq w)
                          (clock w) (fetchCalls w))
             | None => (Returned JUndefined, w)
             end
         | None => (Returned JUndefined, w)
         end.
Proof.
  unfold cancelScheduleFetch. unfold_m.
  destruct (0 <? queueSize (CALLBACK_QUEUE w) key)%nat; [done|].
  destruct (CALLBACK_QUEUE w !! key) as [r|]; [|done].
  by destruct (fetchTimer r).
Qed.

(** C9.  What [cancelScheduleFetch(key)] returns and does.  On a key with
    waiters it returns [false] and changes nothing.  On any other key it
    reaches the end of its body without a [return]: the caller gets
    [undefined], not a boolean.  Then, when the record has a timer handle,
    that timer is cleared and the record deleted; when there is no record or
    no handle, the world is unchanged. *)
Theorem cancelScheduleFetch_returns_undefined key w :
  ((0 < queueSize (CALLBACK_QUEUE w) key)%nat ->
   cancelScheduleFetch key w = (Returned (JBool false), w))
  /\ (queueSize (CALLBACK_QUEUE w) key = 0%nat ->
      (cancelScheduleFetch key w).1 = Returned JUndefined
      /\ (forall r t,
            CALLBACK_QUEUE w !! key = Some r -> fetchTimer r = Some t ->
            CALLBACK_QUEUE (cancelScheduleFetch key w).2 = delete key (CALLBACK_QUEUE w)
            /\ timers (cancelScheduleFetch key w).2 = delete t (timers w))
      /\ ((forall r, CALLBACK_QUEUE w !! key = Some r -> fetchTimer r = None) ->
          (cancelScheduleFetch key w).2 = w)).
Proof.
  rewrite cancelScheduleFetch_eq. split.
  - intros Hpos. apply Nat.ltb_lt in Hpos. by rewrite Hpos.
  - intros Hz. rewrite Hz. simpl.
    destruct (CALLBACK_QUEUE w !! key) as [r|] eqn:E.
    + destruct (fetchTimer r) as [t|] eqn:Et; simpl.
      * split; [done|]. split.
        -- intros r' t' [= <-] Ht. rewrite Et in Ht. by injection Ht as <-.
        -- intros Hnone. specialize (Hnone r eq_refl). congruence.
      * split; [done|]. split; [|done].
        intros r' t' [= <-] Ht. congruence.
    + split; [done|]. split; [|done]. intros r t Hr. discriminate Hr.
Qed.

Lemma cancelScheduleFetch_returns_undefined_witness :
  cancelScheduleFetch "key5" initialWorld = (Returned JUndefined, initialWorld)
  /\ (cancelScheduleFetch "key5"
        (set_queue {[ "key5" := scheduledRecord ]} initialWorld)).1
     = Returned JUndefined.
Proof.
  split.
  - pose proof (cancelScheduleFetch_returns_undefined "key5" initialWorld)
      as [_ Hrest].
    destruct (Hrest eq_refl) as (Hret & _ & Hsame).
    destruct (cancelScheduleFetch "key5" initialWorld) as [o w'].
    simpl in Hret, Hsame. rewrite Hret, Hsame; [reflexivity|].
    intros r Hr. discriminate Hr.
  - pose proof (cancelScheduleFetch_returns_undefined "key5"
      (set_queue {[ "key5" := scheduledRecord ]} initialWorld)) as [_ Hrest].
    destruct (Hrest eq_refl) as (Hret & _). exact Hret.
Defined.

Lemma scheduleFetch_busy key interval f w :
  (0 < queueSize (CALLBACK_QUEUE w) key)%nat ->
  scheduleFetch key interval f w = (Returned false, w).
Proof.
  intros Hpos. apply Nat.ltb_lt in Hpos.
  unfold scheduleFetch. unfold bind at 1. unfold sizeOfCallbackQueue at 1.
  by rewrite Hpos.
Qed.

Lemma scheduleFetch_idle key interval f w :
  queueSize (CALLBACK_QUEUE w) key = 0%nat ->
  scheduleFetch key interval f w
  = match f with
    | Some fn =>
        match fn with
        | FetchNow _ err data =>
            match completion key err data
                    (logFetchCall fn key (fetchingWorld key interval f w)) with
            | (Returned _, w') => (Returned true, w')
            | (Raised e, w') => (Raised e, w')
            end
        | FetchLater _ =>
            (Returned true, logFetchCall fn key (fetchingWorld key interval f w))
        end
    | None => (Raised TypeError, fetchingWorld key interval f w)
    end.
Proof.
  intros Hz.
  unfold scheduleFetch. unfold bind at 1. unfold sizeOfCallbackQueue at 1.
  rewrite Hz. simpl. unfold bind at 1.
  rewrite (registerFetch_own key nullFn true w eq_refl Hz).
  unfold fetchingWorld, fetchingRecord, logFetchCall.
  generalize (clearStale key w). intros w1.
  unfold callFetchFunction.
  destruct f as [[id err data|id]|];
    repeat (rewrite ?lookup_insert_eq, ?insert_insert_eq; unfold_set; unfold_m;
            simpl);
    done.
Qed.

(** The completion callback of [scheduleFetch], called while the record it
    registered is waiting: the result is stored with a [null] expiration. *)
Lemma completion_stores_for_good key err data w r :
  CALLBACK_QUEUE w !! key = Some r ->
  callbacks r <> [] ->
  exists w' r',
    completion key err data w = (Returned tt, w')
    /\ CALLBACK_QUEUE w' !! key = Some r'
    /\ callbacks r' = []
    /\ results r' = Some (err, data)
    /\ expiration r' = ExpNull
    /\ fetchInterval r' = fetchInterval r
    /\ fetchFunction r' = fetchFunction r
    /\ nextTickQueue w' = nextTickQueue w ++ notifications (callbacks r) err data
    /\ fetchCalls w' = fetchCalls w
    /\ clock w' = clock w
    /\ (forall k, k <> key -> CALLBACK_QUEUE w' !! k = CALLBACK_QUEUE w !! k).
Proof.
  intros E Hne. unfold completion.
  destruct (completeFetch_waiters key err data (Some (-1)) w r E Hne)
    as (w' & Hrun & Hticks & _ & Hclock & Hcalls & Hother & _ & Hkeep & _).
  assert (Hneg : -1 <> 0) by lia.
  specialize (Hkeep (-1) eq_refl Hneg).
  exists w'. eexists. split; [done|]. split; [exact Hkeep|]. by repeat split.
Qed.

(** C8.  [scheduleFetch(key, interval, fetchFunction)] on a key with waiters
    returns [false] and changes nothing.  On any other key it returns [true],
    having called [fetchFunction] once, with a completion callback that is
    [completeFetch(key, err, data, -1)]; the key's record then carries
    [interval] and [fetchFunction].  When the fetch function completes at
    once, the result is stored with a [null] expiration and [nullFn] is
    deferred; when it completes later, [nullFn] is the key's waiter until the
    completion callback stores the result in the same way. *)
Theorem scheduleFetch_records_and_fetches_once key interval f w :
  ((0 < queueSize (CALLBACK_QUEUE w) key)%nat ->
   scheduleFetch key (Some interval) (Some f) w = (Returned false, w))
  /\ (queueSize (CALLBACK_QUEUE w) key = 0%nat ->
      exists w' r,
        scheduleFetch key (Some interval) (Some f) w = (Returned true, w')
        /\ fetchCalls w' = fetchCalls w ++ [(f, key)]
        /\ CALLBACK_QUEUE w' !! key = Some r
        /\ fetchInterval r = Some interval
        /\ fetchFunction r = Some f
        /\ match f with
           | FetchNow _ err data =>
               callbacks r = []
               /\ results r = Some (err, data)
               /\ expiration r = ExpNull
               /\ nextTickQueue w' = nextTickQueue w ++ [Tick nullFn err data]
           | FetchLater _ =>
               callbacks r = [nullFn]
               /\ nextTickQueue w' = nextTickQueue w
               /\ forall err data,
                    exists w'' r'',
                      completion key err data w' = (Returned tt, w'')
                      /\ CALLBACK_QUEUE w'' !! key = Some r''
                      /\ results r'' = Some (err, data)
                      /\ expiration r'' = ExpNull
                      /\ fetchCalls w'' = fetchCalls w'
           end)
  /\ (forall err data w0,
        completion key err data w0 = completeFetch key err data (Some (-1)) w0).
Proof.
  split; [apply scheduleFetch_busy|]. split; [|done].
  intros Hz. rewrite (scheduleFetch_idle _ _ _ _ Hz).
  pose proof (clearStale_frame key w) as (Hticks & _ & _ & _ & _ & Hcalls).
  assert (E : CALLBACK_QUEUE
                (logFetchCall f key (fetchingWorld key (Some interval) (Some f) w))
                !! key
              = Some (fetchingRecord (Some interval) (Some f))).
  { simpl. by rewrite lookup_insert_eq. }
  destruct f as [id err data|id].
  - destruct (completion_stores_for_good key err data _ _ E)
      as (w' & r' & -> & E' & Hcb & Hres & Hexp & Hint & Hfn & Hq & Hfc & _);
      [done|].
    exists w', r'. simpl in *. rewrite Hfc, Hq, Hcalls, Hticks.
    by repeat split.
  - eexists. exists (fetchingRecord (Some interval) (Some (FetchLater id))).
    split; [reflexivity|]. split; [simpl; by rewrite Hcalls|].
    split; [exact E|]. split; [done|]. split; [done|].
    split; [done|]. split; [done|].
    intros err data.
    destruct (completion_stores_for_good key err data _ _ E)
      as (w'' & r'' & Hrun & E'' & _ & Hres & Hexp & _ & _ & _ & Hfc & _);
      [done|].
    by exists w'', r''.
Qed.

Lemma scheduleFetch_records_and_fetches_once_witness :
  (exists w',
      scheduleFetch "key5" (Some 1000)
        (Some (FetchNow 5 JNull (JStr "AutoFetch number 1"))) initialWorld
      = (Returned true, w')
      /\ fetchCalls w' = [(FetchNow 5 JNull (JStr "AutoFetch number 1"), "key5")])
  /\ scheduleFetch "key1" (Some 1000) (Some (FetchLater 6))
       (set_queue {[ "key1" := newRecord (UserCallback 1) ]} initialWorld)
     = (Returned false,
        set_queue {[ "key1" := newRecord (UserCallback 1) ]} initialWorld).
Proof.
  split.
  - pose proof (scheduleFetch_records_and_fetches_once "key5" 1000
      (FetchNow 5 JNull (JStr "AutoFetch number 1")) initialWorld)
      as (_ & Hidle & _).
    destruct (Hidle eq_refl) as (w' & r & Hrun & Hcalls & _).
    exists w'. split; [exact Hrun | exact Hcalls].
  - pose proof (scheduleFetch_records_and_fetches_once "key1" 1000
      (FetchLater 6)
      (set_queue {[ "key1" := newRecord (UserCallback 1) ]} initialWorld))
      as (Hbusy & _).
    apply Hbusy. vm_compute. lia.
Defined.

Lemma expireCachedData_eq key w :
  expireCachedData key w
  = (Returned tt,
     match CALLBACK_QUEUE w !! key with
     | Some r =>
         match results r with
         | Some _ => set_queue (<[key := set_results None r]> (CALLBACK_QUEUE w)) w
         | None => w
         end
     | None => w
     end).
Proof.
  unfold expireCachedData. unfold_m.
  destruct (CALLBACK_QUEUE w !! key) as [r|] eqn:E; [|done].
  destruct (results r); [|done]. by rewrite E.
Qed.

(** C6, as the code has it.  After [completeFetch] with a positive [timeout]
    [d] on a key with waiters, the record holds [(err, data)] with
    [expiration = now + d] and a timer for [expireCachedData(key)] is armed.
    From that world, [cachedDataFor(key)] returns the result at any time
    before [now + d]; from [now + d] on it returns [null], having deleted
    both [results] and [expiration] and kept the record.  When the timer
    fires it deletes [results] only: the record stays, and so does its
    [expiration]. *)
Theorem completeFetch_positive_timeout_expires key err data d w :
  0 < d ->
  (0 < queueSize (CALLBACK_QUEUE w) key)%nat ->
  exists r w' r',
    CALLBACK_QUEUE w !! key = Some r
    /\ completeFetch key err data (Some d) w = (Returned tt, w')
    /\ CALLBACK_QUEUE w' !! key = Some r'
    /\ results r' = Some (err, data)
    /\ expiration r' = ExpAt (clock w + d)
    /\ timers w' !! expireTimerId r w = Some (mkTimer (clock w) d (TExpire key))
    /\ (forall now, now < clock w + d ->
          cachedDataFor key (set_clock now w')
          = (Returned (Some (err, data)), set_clock now w'))
    /\ (forall now, clock w + d <= now ->
          exists w2,
            cachedDataFor key (set_clock now w') = (Returned None, w2)
            /\ CALLBACK_QUEUE w2 !! key
               = Some (set_expiration ExpAbsent (set_results None r')))
    /\ (forall now, clock w + d <= now ->
          exists w3,
            fireTimer (expireTimerId r w) (set_clock now w') = (Returned tt, w3)
            /\ CALLBACK_QUEUE w3 !! key = Some (set_results None r')
            /\ results (set_results None r') = None
            /\ expiration (set_results None r') = ExpAt (clock w + d)).
Proof.
  intros Hd Hpos. destruct (queueSize_pos _ _ Hpos) as (r & E & Hne).
  destruct (completeFetch_waiters key err data (Some d) w r E Hne)
    as (w' & Hrun & _ & _ & _ & _ & _ & _ & Hkeep & _ & Htimer).
  assert (Hd0 : d <> 0) by lia.
  specialize (Hkeep d eq_refl Hd0). specialize (Htimer d eq_refl Hd).
  assert (Hexp : storedExpiration (clock w) d = ExpAt (clock w + d)).
  { unfold storedExpiration. destruct (0 <? d) eqn:Hlt; [done | lia]. }
  rewrite Hexp in Hkeep.
  exists r, w'. eexists. split; [done|]. split; [done|].
  split; [exact Hkeep|]. split; [done|]. split; [done|]. split; [done|].
  split; [|split].
  - intros now Hnow. rewrite cachedDataFor_eq.
    unfold liveResult, clearStale. simpl. rewrite Hkeep. simpl.
    destruct (now <? clock w + d) eqn:Hlt; [done | lia].
  - intros now Hnow. rewrite cachedDataFor_eq. eexists.
    unfold liveResult, clearStale. simpl. rewrite Hkeep. simpl.
    destruct (now <? clock w + d) eqn:Hlt; [lia|].
    split; [done|]. simpl. by rewrite lookup_insert_eq.
  - intros now Hnow. unfold fireTimer. simpl. rewrite Htimer. simpl.
    destruct (clock w + d <=? now) eqn:Hdue; [|lia].
    unfold bind, clearTimeout. simpl.
    rewrite expireCachedData_eq. simpl. rewrite Hkeep. simpl.
    eexists. split; [done|]. simpl. by rewrite lookup_insert_eq.
Qed.

Lemma completeFetch_positive_timeout_expires_witness :
  exists w',
    completeFetch "key3" JNull (JStr "key3-data-goes-here") (Some 1000)
      (set_queue {[ "key3" := newRecord (UserCallback 1) ]} initialWorld)
    = (Returned tt, w')
    /\ cachedDataFor "key3" (set_clock 999 w')
       = (Returned (Some (JNull, JStr "key3-data-goes-here")), set_clock 999 w').
Proof.
  destruct (completeFetch_positive_timeout_expires "key3" JNull
              (JStr "key3-data-goes-here") 1000
              (set_queue {[ "key3" := newRecord (UserCallback 1) ]} initialWorld))
    as (r & w' & r' & _ & Hrun & _ & _ & _ & _ & Hlive & _).
  - lia.
  - vm_compute. lia.
  - exists w'. split; [exact Hrun|]. apply Hlive. simpl. lia.
Defined.

(** C6, counterexample to the timer clearing the expiration: when the
    expiration timer of [key3] fires, the record loses [results] and keeps
    [expiration = 1000]. *)
Lemma expiry_timer_keeps_expiration :
  CALLBACK_QUEUE afterExpiryTimer !! "key3"
  = Some (mkRecord [] (ExpAt 1000) None None None None)
  /\ ~ (exists r, CALLBACK_QUEUE afterExpiryTimer !! "key3" = Some r
                  /\ results r = None /\ expiration r = ExpAbsent).
Proof.
  assert (E : CALLBACK_QUEUE afterExpiryTimer !! "key3"
              = Some (mkRecord [] (ExpAt 1000) None None None None))
    by (vm_compute; reflexivity).
  split; [exact E|].
  intros (r & Hr & _ & Hexp). rewrite E in Hr. injection Hr as <-.
  discriminate Hexp.
Qed.

Lemma registryInvariant_records w :
  registryInvariant w
  <-> forall key r, CALLBACK_QUEUE w !! key = Some r ->
                    recordInUse (clock w) r = true.
Proof.
  unfold registryInvariant, keyInUse. split.
  - intros Hinv key r E. specialize (Hinv key). rewrite E in Hinv.
    apply Hinv. by eexists.
  - intros Hrec key. destruct (CALLBACK_QUEUE w !! key) as [r|] eqn:E.
    + split; [intros _; by apply (Hrec key) | by eexists].
    + split; [intros [? ?]; done | done].
Qed.

Lemma keepsInUse_refl w : keepsInUse w w.
Proof. split; [done|]. intros k r' E. right. by exists r'. Qed.

Lemma keepsInUse_trans w1 w2 w3 :
  keepsInUse w1 w2 -> keepsInUse w2 w3 -> keepsInUse w1 w3.
Proof.
  intros [Hc12 H12] [Hc23 H23]. split; [congruence|].
  intros k r3 E3. rewrite Hc12 in H23.
  destruct (H23 k r3 E3) as [?|(r2 & E2 & H2)]; [by left|].
  destruct (H12 k r2 E2) as [?|(r1 & E1 & H1)]; [left; by apply H2|].
  right. exists r1. split; [done|]. intros ?. by apply H2, H1.
Qed.

Lemma keepsInUse_invariant w w' :
  keepsInUse w w' -> registryInvariant w -> registryInvariant w'.
Proof.
  intros [Hc Hk]. rewrite !registryInvariant_records. intros Hinv key r' E.
  rewrite Hc. destruct (Hk key r' E) as [?|(r & Er & Himp)]; [done|].
  apply Himp. by apply (Hinv key).
Qed.

(** A change of the deferred calls, timers or log alone. *)
Lemma keepsInUse_same_queue w w' :
  CALLBACK_QUEUE w' = CALLBACK_QUEUE w -> clock w' = clock w -> keepsInUse w w'.
Proof.
  intros Hq Hc. split; [done|]. intros k r' E. right. exists r'.
  by rewrite <- Hq.
Qed.

Lemma keepsInUse_insert key r w :
  recordInUse (clock w) r = true ->
  keepsInUse w (set_queue (<[key := r]> (CALLBACK_QUEUE w)) w).
Proof.
  intros Hr. split; [done|]. intros k r' E. simpl in E.
  destruct (decide (key = k)) as [->|Hne].
  - rewrite lookup_insert_eq in E. injection E as <-. by left.
  - rewrite lookup_insert_ne in E by done. right. by exists r'.
Qed.

Lemma keepsInUse_clearStale key w : keepsInUse w (clearStale key w).
Proof.
  unfold clearStale.
  destruct (CALLBACK_QUEUE w !! key) as [r|] eqn:E; [|apply keepsInUse_refl].
  destruct (results r) as [res|] eqn:Er; [|apply keepsInUse_refl].
  destruct (notStale (expiration r) (clock w)) eqn:Hs; [apply keepsInUse_refl|].
  split; [done|]. intros k r' E'. simpl in E'.
  destruct (decide (key = k)) as [->|Hne].
  - rewrite lookup_insert_eq in E'. injection E' as <-.
    right. exists r. split; [done|].
    unfold recordInUse, hasRefetch. simpl. by rewrite Er, Hs.
  - rewrite lookup_insert_ne in E' by done. right. by exists r'.
Qed.

Lemma keepsInUse_registerFetch key cb (forceUpdate : bool) w :
  keepsInUse w (registerFetch key cb forceUpdate w).2.
Proof.
  destruct (if forceUpdate then None else liveResult w key)
    as [[err data]|] eqn:Hc.
  - destruct forceUpdate; [done|].
    rewrite (registerFetch_cached _ cb _ _ _ Hc). by apply keepsInUse_same_queue.
  - assert (Hcases : queueSize (CALLBACK_QUEUE w) key = 0%nat
                     \/ (0 < queueSize (CALLBACK_QUEUE w) key)%nat) by lia.
    pose proof (clearStale_frame key w) as (_ & _ & _ & _ & Hclock & _).
    destruct Hcases as [Hz|Hpos].
    + rewrite (registerFetch_own key cb forceUpdate w Hc Hz). simpl.
      eapply keepsInUse_trans; [apply keepsInUse_clearStale|].
      by apply keepsInUse_insert.
    + destruct (registerFetch_join key cb forceUpdate w Hc Hpos) as (r1 & _ & ->).
      simpl. eapply keepsInUse_trans; [apply keepsInUse_clearStale|].
      apply keepsInUse_insert. unfold recordInUse. simpl.
      by destruct (callbacks r1).
Qed.

Lemma keepsInUse_completeFetch key err data timeout w :
  keepsInUse w (completeFetch key err data timeout w).2.
Proof.
  assert (Hcases : queueSize (CALLBACK_QUEUE w) key = 0%nat
                   \/ (0 < queueSize (CALLBACK_QUEUE w) key)%nat) by lia.
  destruct Hcases as [Hz|Hpos].
  - rewrite (completeFetch_no_waiters _ _ _ _ _ Hz). apply keepsInUse_refl.
  - destruct (queueSize_pos _ _ Hpos) as (r & E & Hne).
    destruct (completeFetch_waiters key err data timeout w r E Hne)
      as (w' & -> & _ & _ & Hclock & _ & Hother & Hdel & Hkeep & _).
    simpl. split; [done|]. intros k r' E'.
    destruct (decide (k = key)) as [->|Hk].
    + destruct timeout as [d|]; [|rewrite Hdel in E'; done].
      destruct (decide (d = 0)) as [->|Hd]; [rewrite Hdel in E'; done|].
      rewrite (Hkeep d eq_refl Hd) in E'. injection E' as <-. left.
      unfold recordInUse, storedExpiration. simpl.
      destruct (0 <? d) eqn:Hlt; simpl; [|done].
      destruct (clock w <? clock w + d) eqn:Hlive; [done | lia].
    + rewrite (Hother k Hk) in E'. right. by exists r'.
Qed.

Lemma keepsInUse_scheduleFetch key interval f w :
  keepsInUse w (scheduleFetch key interval f w).2.
Proof.
  assert (Hcases : queueSize (CALLBACK_QUEUE w) key = 0%nat
                   \/ (0 < queueSize (CALLBACK_QUEUE w) key)%nat) by lia.
  destruct Hcases as [Hz|Hpos].
  - rewrite (scheduleFetch_idle _ _ _ _ Hz).
    assert (Hfw : keepsInUse w (fetchingWorld key interval f w)).
    { unfold fetchingWorld.
      eapply keepsInUse_trans; [apply keepsInUse_clearStale|].
      by apply keepsInUse_insert. }
    destruct f as [fn|]; [|done].
    assert (Hlog : keepsInUse w
                     (logFetchCall fn key (fetchingWorld key interval (Some fn) w))).
    { eapply keepsInUse_trans; [exact Hfw|]. by apply keepsInUse_same_queue. }
    destruct fn as [id err data|id]; [|done].
    eapply keepsInUse_trans; [exact Hlog|].
    pose proof (keepsInUse_completeFetch key err data (Some (-1))
                  (logFetchCall (FetchNow id err data) key
                     (fetchingWorld key interval (Some (FetchNow id err data)) w)))
      as Hdone.
    unfold completion.
    by destruct (completeFetch key err data (Some (-1)) _) as [[[]|e] w'].
  - rewrite (scheduleFetch_busy _ _ _ _ Hpos). apply keepsInUse_refl.
Qed.

Lemma keepsInUse_cancelScheduleFetch key w :
  keepsInUse w (cancelScheduleFetch key w).2.
Proof.
  rewrite cancelScheduleFetch_eq.
  destruct (0 <? queueSize (CALLBACK_QUEUE w) key)%nat; [apply keepsInUse_refl|].
  destruct (CALLBACK_QUEUE w !! key) as [r|] eqn:E; [|apply keepsInUse_refl].
  destruct (fetchTimer r); [|apply keepsInUse_refl].
  split; [done|]. intros k r' E'. simpl in E'.
  destruct (decide (key = k)) as [->|Hne].
  - by rewrite lookup_delete_eq in E'.
  - rewrite lookup_delete_ne in E' by done. right. by exists r'.
Qed.

Lemma keepsInUse_dataPendingFor key w :
  keepsInUse w (dataPendingFor key w).2.
Proof.
  unfold dataPendingFor. unfold bind at 1. rewrite cachedDataFor_eq.
  destruct (liveResult w key); simpl; apply keepsInUse_clearStale.
Qed.

(** C7, as the code has it.  Called in a world where the invariant holds,
    every exported function leaves a world where it holds at the same
    instant: a record exists exactly for the keys with waiters, a live result
    or a scheduled fetch.  [expireCachedData], the body of the expiration
    timer, never removes a record: it deletes [results] and leaves the rest
    of the record in the registry. *)
Theorem exported_functions_preserve_invariant w :
  registryInvariant w ->
  (forall key cb forceUpdate,
      registryInvariant (registerFetch key cb forceUpdate w).2)
  /\ (forall key err data timeout,
        registryInvariant (completeFetch key err data timeout w).2)
  /\ (forall key interval f,
        registryInvariant (scheduleFetch key interval f w).2)
  /\ (forall key, registryInvariant (cancelScheduleFetch key w).2)
  /\ (forall key, registryInvariant (cachedDataFor key w).2)
  /\ (forall key, registryInvariant (dataPendingFor key w).2)
  /\ (forall key, (sizeOfCallbackQueue key w).2 = w)
  /\ (forall key w0 r,
        CALLBACK_QUEUE w0 !! key = Some r ->
        CALLBACK_QUEUE (expireCachedData key w0).2 !! key
        = Some (set_results None r)).
Proof.
  intros Hinv. repeat apply conj.
  - intros key cb forceUpdate.
    apply (keepsInUse_invariant w); [apply keepsInUse_registerFetch | done].
  - intros key err data timeout.
    apply (keepsInUse_invariant w); [apply keepsInUse_completeFetch | done].
  - intros key interval f.
    apply (keepsInUse_invariant w); [apply keepsInUse_scheduleFetch | done].
  - intros key.
    apply (keepsInUse_invariant w); [apply keepsInUse_cancelScheduleFetch | done].
  - intros key. rewrite cachedDataFor_eq. simpl.
    apply (keepsInUse_invariant w); [apply keepsInUse_clearStale | done].
  - intros key.
    apply (keepsInUse_invariant w); [apply keepsInUse_dataPendingFor | done].
  - done.
  - intros key w0 r E. rewrite expireCachedData_eq. simpl. rewrite E.
    destruct (results r) eqn:Er.
    + simpl. by rewrite lookup_insert_eq.
    + rewrite E. f_equal. destruct r. simpl in Er. by rewrite Er.
Qed.

Lemma initialWorld_invariant : registryInvariant initialWorld.
Proof.
  apply registryInvariant_records. intros key r E. simpl in E.
  by rewrite lookup_empty in E.
Defined.

Lemma exported_functions_preserve_invariant_witness :
  registryInvariant initialWorld
  /\ registryInvariant
       (registerFetch "key1" (UserCallback 1) false initialWorld).2
  /\ registryInvariant
       (scheduleFetch "key5" (Some 1000)
          (Some (FetchNow 5 JNull (JStr "AutoFetch number 1"))) initialWorld).2.
Proof.
  pose proof (exported_functions_preserve_invariant initialWorld
                initialWorld_invariant) as (Hreg & _ & Hsched & _).
  split; [exact initialWorld_invariant|]. split; [apply Hreg | apply Hsched].
Defined.

(** C7, counterexample to the invariant: once the result stored for [key3]
    has expired, by the timer or by a late read, the registry still has a
    record for [key3], with no waiters, no result and no scheduled fetch. *)
Lemma expired_record_is_left_behind :
  (CALLBACK_QUEUE afterExpiryTimer !! "key3"
   = Some (mkRecord [] (ExpAt 1000) None None None None)
   /\ keyInUse afterExpiryTimer "key3" = false
   /\ ~ registryInvariant afterExpiryTimer)
  /\ (CALLBACK_QUEUE afterLateRead !! "key3"
      = Some (mkRecord [] ExpAbsent None None None None)
      /\ keyInUse afterLateRead "key3" = false
      /\ ~ registryInvariant afterLateRead).
Proof.
  assert (E1 : CALLBACK_QUEUE afterExpiryTimer !! "key3"
               = Some (mkRecord [] (ExpAt 1000) None None None None))
    by (vm_compute; reflexivity).
  assert (E2 : CALLBACK_QUEUE afterLateRead !! "key3"
               = Some (mkRecord [] ExpAbsent None None None None))
    by (vm_compute; reflexivity).
  assert (U1 : keyInUse afterExpiryTimer "key3" = false)
    by (unfold keyInUse; by rewrite E1).
  assert (U2 : keyInUse afterLateRead "key3" = false)
    by (unfold keyInUse; by rewrite E2).
  split; (split; [done|]; split; [done|]).
  - intros Hinv. destruct (Hinv "key3") as [Hto _].
    rewrite U1 in Hto. by discriminate Hto; [rewrite E1; eexists].
  - intros Hinv. destruct (Hinv "key3") as [Hto _].
    rewrite U2 in Hto. by discriminate Hto; [rewrite E2; eexists].
Qed.

(** * Further properties of the module *)

(** ** Reading the registry *)

Lemma clearStale_other key k w :
  k <> key ->
  CALLBACK_QUEUE (clearStale key w) !! k = CALLBACK_QUEUE w !! k.
Proof.
  intros Hk. unfold clearStale.
  destruct (CALLBACK_QUEUE w !! key) as [r|]; [|done].
  destruct (results r); [|done].
  destruct (notStale (expiration r) (clock w)); [done|].
  simpl. by rewrite lookup_insert_ne.
Qed.

Lemma liveResult_clearStale key w :
  liveResult (clearStale key w) key = liveResult w key.
Proof.
  unfold liveResult, clearStale.
  destruct (CALLBACK_QUEUE w !! key) as [r|] eqn:E; [|by rewrite E].
  destruct (results r) as [res|] eqn:Er; [|by rewrite E, Er].
  destruct (notStale (expiration r) (clock w)) eqn:Hs.
  - by rewrite E, Er, Hs.
  - simpl. by rewrite lookup_insert_eq.
Qed.

Lemma clearStale_idem key w :
  clearStale key (clearStale key w) = clearStale key w.
Proof.
  unfold clearStale at 2 3.
  destruct (CALLBACK_QUEUE w !! key) as [r|] eqn:E.
  - destruct (results r) as [res|] eqn:Er.
    + destruct (notStale (expiration r) (clock w)) eqn:Hs.
      * unfold clearStale. by rewrite E, Er, Hs.
      * unfold clearStale. simpl. by rewrite lookup_insert_eq.
    + unfold clearStale. by rewrite E, Er.
  - unfold clearStale. by rewrite E.
Qed.

Lemma dataPendingFor_eq key w :
  dataPendingFor key w
  = (Returned (match liveResult w key with
               | Some _ => true
               | None => (0 <? queueSize (CALLBACK_QUEUE w) key)%nat
               end),
     clearStale key w).
Proof.
  unfold dataPendingFor. unfold bind at 1. rewrite cachedDataFor_eq.
  destruct (liveResult w key); [done|].
  unfold_m. by rewrite clearStale_queueSize.
Qed.

(** X1.  Reading twice is reading once: a second [cachedDataFor(key)] right
    after the first returns the same value and changes nothing, and so does
    [dataPendingFor(key)].  The lazy expiration of the first read is all
    there is to do. *)
Theorem cachedDataFor_idempotent key w :
  cachedDataFor key (cachedDataFor key w).2
  = ((cachedDataFor key w).1, (cachedDataFor key w).2)
  /\ dataPendingFor key (dataPendingFor key w).2
     = ((dataPendingFor key w).1, (dataPendingFor key w).2)
  /\ (cachedDataFor key w).2 = (dataPendingFor key w).2.
Proof.
  rewrite !dataPendingFor_eq, !cachedDataFor_eq. simpl.
  rewrite ?cachedDataFor_eq, ?dataPendingFor_eq.
  by rewrite liveResult_clearStale, clearStale_idem, clearStale_queueSize.
Qed.

(** X2.  [registerFetch] returns [true] exactly when it answers from the
    cache or the key already has waiters, and unless it answers from the
    cache it leaves the key with one waiter more than before. *)
Theorem registerFetch_counts_waiters key cb (forceUpdate : bool) w :
  (registerFetch key cb forceUpdate w).1
  = Returned (match (if forceUpdate then None else liveResult w key) with
              | Some _ => true
              | None => (0 <? queueSize (CALLBACK_QUEUE w) key)%nat
              end)
  /\ queueSize (CALLBACK_QUEUE (registerFetch key cb forceUpdate w).2) key
     = match (if forceUpdate then None else liveResult w key) with
       | Some _ => queueSize (CALLBACK_QUEUE w) key
       | None => S (queueSize (CALLBACK_QUEUE w) key)
       end.
Proof.
  destruct (if forceUpdate then None else liveResult w key)
    as [[err data]|] eqn:Hc.
  - destruct forceUpdate; [done|].
    by rewrite (registerFetch_cached _ cb _ _ _ Hc).
  - assert (Hcases : queueSize (CALLBACK_QUEUE w) key = 0%nat
                     \/ (0 < queueSize (CALLBACK_QUEUE w) key)%nat) by lia.
    destruct Hcases as [Hz|Hpos].
    + destruct (registerFetch_own_facts key cb forceUpdate w Hc Hz)
        as (-> & E' & _).
      rewrite Hz. split; [done|]. by rewrite (queueSize_lookup _ _ _ E').
    + destruct (registerFetch_join_facts key cb forceUpdate w Hc Hpos)
        as (r & r' & E & -> & E' & Hcb & _).
      split.
      * apply Nat.ltb_lt in Hpos. by rewrite Hpos.
      * rewrite (queueSize_lookup _ _ _ E'), (queueSize_lookup _ _ _ E), Hcb.
        rewrite length_app. simpl. lia.
Qed.

(** X3.  [dataPendingFor(key)] tells what a registration without
    [forceUpdate] would return: [true] when the caller would be served by the
    cache or by the fetch in flight, [false] when it would become the owner
    of a new fetch. *)
Theorem dataPendingFor_predicts_registerFetch key cb w :
  (dataPendingFor key w).1 = (registerFetch key cb false w).1.
Proof.
  rewrite dataPendingFor_eq. simpl.
  destruct (liveResult w key) as [[err data]|] eqn:Hc.
  - by rewrite (registerFetch_cached _ cb _ _ _ Hc).
  - assert (Hcases : queueSize (CALLBACK_QUEUE w) key = 0%nat
                     \/ (0 < queueSize (CALLBACK_QUEUE w) key)%nat) by lia.
    destruct Hcases as [Hz|Hpos].
    + destruct (registerFetch_own_facts key cb false w Hc Hz) as (-> & _).
      by rewrite Hz.
    + destruct (registerFetch_join_facts key cb false w Hc Hpos)
        as (r & r' & _ & -> & _).
      apply Nat.ltb_lt in Hpos. by rewrite Hpos.
Qed.

(** ** One fetch, from registration to completion *)

Lemma clearStale_no_result key w r :
  CALLBACK_QUEUE w !! key = Some r -> results r = None -> clearStale key w = w.
Proof. intros E Er. unfold clearStale. by rewrite E, Er. Qed.

Lemma set_queue_id w : set_queue (CALLBACK_QUEUE w) w = w.
Proof. by destruct w. Qed.

Lemma set_callbacks_id r : set_callbacks (callbacks r) r = r.
Proof. by destruct r. Qed.

(** [completeFetch] without retention on a record without fetch interval:
    the waiters are notified and the record is deleted, nothing else. *)
Lemma completeFetch_plain_eq key err data timeout w r :
  CALLBACK_QUEUE w !! key = Some r ->
  callbacks r <> [] ->
  truthyNum (fetchInterval r) = false ->
  truthyNum timeout = false ->
  completeFetch key err data timeout w
  = (Returned tt,
     queueTicks (notifications (callbacks r) err data)
       (set_queue (delete key (CALLBACK_QUEUE w)) w)).
Proof.
  intros E Hne Hi Ht.
  assert (Hpos : (0 <? queueSize (CALLBACK_QUEUE w) key)%nat = true).
  { apply Nat.ltb_lt. rewrite (queueSize_lookup _ _ _ E).
    destruct (callbacks r); [done | simpl; lia]. }
  unfold completeFetch. unfold bind at 1. unfold sizeOfCallbackQueue at 1.
  rewrite Hpos. unfold bind at 1. unfold getRecord at 1. rewrite E.
  unfold bind at 1. rewrite forEach_nextTick.
  destruct w as [q ticks dl tm sq now fc]. simpl in *.
  destruct (fetchInterval r) as [i|] eqn:Ei;
    [destruct (i =? 0) eqn:Hi0; [|simpl in Hi; rewrite Hi0 in Hi; done]|];
    (destruct timeout as [d|];
     [destruct (d =? 0) eqn:Hd0; [|simpl in Ht; rewrite Hd0 in Ht; done]|]);
    unfold_m; simpl;
    repeat (rewrite ?E, ?Ei, ?Hi0, ?Hd0, ?lookup_insert_eq,
              ?insert_insert_eq; simpl);
    unfold queueTicks, set_queue; simpl; by rewrite delete_insert_eq.
Qed.

Lemma completeFetch_other key k err data timeout w :
  k <> key ->
  CALLBACK_QUEUE (completeFetch key err data timeout w).2 !! k
  = CALLBACK_QUEUE w !! k.
Proof.
  intros Hk.
  assert (Hcases : queueSize (CALLBACK_QUEUE w) key = 0%nat
                   \/ (0 < queueSize (CALLBACK_QUEUE w) key)%nat) by lia.
  destruct Hcases as [Hz|Hpos].
  - by rewrite (completeFetch_no_waiters _ _ _ _ _ Hz).
  - destruct (queueSize_pos _ _ Hpos) as (r & E & Hne).
    destruct (completeFetch_waiters key err data timeout w r E Hne)
      as (w' & -> & _ & _ & _ & _ & Hother & _).
    by apply Hother.
Qed.

(** After [completeFetch] on a key with waiters, the key has none. *)
Lemma completeFetch_leaves_no_waiters key err data timeout w w' :
  (0 < queueSize (CALLBACK_QUEUE w) key)%nat ->
  completeFetch key err data timeout w = (Returned tt, w') ->
  queueSize (CALLBACK_QUEUE w') key = 0%nat.
Proof.
  intros Hpos Hrun. destruct (queueSize_pos _ _ Hpos) as (r & E & Hne).
  destruct (completeFetch_waiters key err data timeout w r E Hne)
    as (w1 & Hrun1 & _ & _ & _ & _ & _ & Hdel & Hkeep & _).
  rewrite Hrun in Hrun1. injection Hrun1 as <-.
  unfold queueSize. destruct timeout as [d|].
  - destruct (decide (d = 0)) as [->|Hd].
    + by rewrite Hdel.
    + by rewrite (Hkeep d eq_refl Hd).
  - by rewrite Hdel.
Qed.

(** X4.  A fetch without retention leaves no trace: on a key without record,
    [registerFetch] (which returns [false]) followed by [completeFetch] with
    an omitted or zero timeout gives back the world it started from, but for
    the one deferred call of the callback. *)
Theorem register_then_complete_restores key cb (forceUpdate : bool) err data
    timeout w :
  CALLBACK_QUEUE w !! key = None ->
  truthyNum timeout = false ->
  (let* owner := registerFetch key cb forceUpdate in
   exec completeFetch key err data timeout in
   ret owner) w
  = (Returned false, queueTicks [Tick cb err data] w).
Proof.
  intros E Ht.
  assert (Hz : queueSize (CALLBACK_QUEUE w) key = 0%nat)
    by (unfold queueSize; by rewrite E).
  assert (Hc : (if forceUpdate then None else liveResult w key) = None).
  { destruct forceUpdate; [done|]. unfold liveResult. by rewrite E. }
  unfold bind at 1. rewrite (registerFetch_own key cb forceUpdate w Hc Hz).
  rewrite (clearStale_lookup_None _ _ E).
  unfold bind at 1.
  rewrite (completeFetch_plain_eq key err data timeout _ (newRecord cb));
    [|simpl; by rewrite lookup_insert_eq|done|done|done].
  unfold ret. simpl. rewrite delete_insert_eq, (delete_id _ _ E).
  unfold queueTicks, set_queue. simpl. done.
Qed.

Lemma register_then_complete_restores_witness :
  (let* owner := registerFetch "key1" (UserCallback 1) false in
   exec completeFetch "key1" JNull (JStr "data-goes-here") None in
   ret owner) initialWorld
  = (Returned false,
     queueTicks [Tick (UserCallback 1) JNull (JStr "data-goes-here")]
       initialWorld).
Proof.
  apply (register_then_complete_restores "key1" (UserCallback 1) false JNull
           (JStr "data-goes-here") None initialWorld); reflexivity.
Defined.

(** X5.  The retention window.  After [completeFetch] with a positive
    timeout [d], a registration without [forceUpdate] made before
    [now + d] returns [true], defers the callback with the stored pair and
    changes nothing else; made at [now + d] or later it returns [false] and
    the caller owns a new fetch on a new record. *)
Theorem retention_window key err data d cb w :
  0 < d ->
  (0 < queueSize (CALLBACK_QUEUE w) key)%nat ->
  exists w',
    completeFetch key err data (Some d) w = (Returned tt, w')
    /\ (forall now, now < clock w + d ->
          registerFetch key cb false (set_clock now w')
          = (Returned true, queueTicks [Tick cb err data] (set_clock now w')))
    /\ (forall now, clock w + d <= now ->
          (registerFetch key cb false (set_clock now w')).1 = Returned false
          /\ CALLBACK_QUEUE (registerFetch key cb false (set_clock now w')).2
               !! key
             = Some (newRecord cb)).
Proof.
  intros Hd Hpos. destruct (queueSize_pos _ _ Hpos) as (r & E & Hne).
  destruct (completeFetch_waiters key err data (Some d) w r E Hne)
    as (w' & Hrun & _ & _ & _ & _ & _ & _ & Hkeep & _).
  assert (Hd0 : d <> 0) by lia.
  specialize (Hkeep d eq_refl Hd0).
  assert (Hexp : storedExpiration (clock w) d = ExpAt (clock w + d)).
  { unfold storedExpiration. destruct (0 <? d) eqn:Hlt; [done | lia]. }
  rewrite Hexp in Hkeep.
  exists w'. split; [done|]. split.
  - intros now Hnow. apply registerFetch_cached.
    unfold liveResult. simpl. rewrite Hkeep. simpl.
    destruct (now <? clock w + d) eqn:Hlt; [done | lia].
  - intros now Hnow.
    assert (Hc : liveResult (set_clock now w') key = None).
    { unfold liveResult. simpl. rewrite Hkeep. simpl.
      destruct (now <? clock w + d) eqn:Hlt; [lia | done]. }
    assert (Hz : queueSize (CALLBACK_QUEUE (set_clock now w')) key = 0%nat).
    { unfold queueSize. simpl. by rewrite Hkeep. }
    by destruct (registerFetch_own_facts key cb false _ Hc Hz) as (? & ? & _).
Qed.

Lemma retention_window_witness :
  exists w',
    completeFetch "key3" JNull (JStr "key3-data-goes-here") (Some 1000)
      (set_queue {[ "key3" := newRecord (UserCallback 1) ]} initialWorld)
    = (Returned tt, w')
    /\ (registerFetch "key3" (UserCallback 2) false (set_clock 0 w')).1
       = Returned true
    /\ (registerFetch "key3" (UserCallback 2) false (set_clock 1500 w')).1
       = Returned false.
Proof.
  destruct (retention_window "key3" JNull (JStr "key3-data-goes-here") 1000
              (UserCallback 2)
              (set_queue {[ "key3" := newRecord (UserCallback 1) ]} initialWorld))
    as (w' & Hrun & Hbefore & Hafter).
  - lia.
  - vm_compute. lia.
  - exists w'. split; [exact Hrun|]. split.
    + rewrite Hbefore; [reflexivity | simpl; lia].
    + apply Hafter. simpl. lia.
Defined.

(** X6.  A fetch is completed once.  After a [completeFetch] that notified
    the waiters of a key, any further [completeFetch] on that key throws the
    no-callbacks error and changes nothing, whatever the retention of the
    first one was. *)
Theorem completeFetch_twice_throws key err data timeout err' data' timeout' w :
  (0 < queueSize (CALLBACK_QUEUE w) key)%nat ->
  exists w',
    completeFetch key err data timeout w = (Returned tt, w')
    /\ completeFetch key err' data' timeout' w'
       = (Raised (Thrown (noCallbacksMessage +:+ key)), w').
Proof.
  intros Hpos. destruct (queueSize_pos _ _ Hpos) as (r & E & Hne).
  destruct (completeFetch_waiters key err data timeout w r E Hne)
    as (w' & Hrun & _).
  exists w'. split; [done|].
  apply completeFetch_no_waiters.
  by apply (completeFetch_leaves_no_waiters key err data timeout w).
Qed.

Lemma completeFetch_twice_throws_witness :
  exists w',
    completeFetch "key1" JNull (JStr "data-goes-here") None
      (set_queue {[ "key1" := newRecord (UserCallback 1) ]} initialWorld)
    = (Returned tt, w')
    /\ completeFetch "key1" JNull (JStr "again") (Some 1000) w'
       = (Raised (Thrown (noCallbacksMessage +:+ "key1")), w').
Proof.
  apply (completeFetch_twice_throws "key1" JNull (JStr "data-goes-here") None
           JNull (JStr "again") (Some 1000)
           (set_queue {[ "key1" := newRecord (UserCallback 1) ]} initialWorld)).
  vm_compute. lia.
Defined.

(** X7.  Right after [completeFetch] on a key with waiters,
    [dataPendingFor(key)] is [true] exactly when the timeout was truthy: a
    nonzero timeout leaves a live result, an omitted or zero one leaves
    nothing. *)
Theorem dataPendingFor_after_completeFetch key err data timeout w :
  (0 < queueSize (CALLBACK_QUEUE w) key)%nat ->
  exists w',
    completeFetch key err data timeout w = (Returned tt, w')
    /\ dataPendingFor key w' = (Returned (truthyNum timeout), w').
Proof.
  intros Hpos. destruct (queueSize_pos _ _ Hpos) as (r & E & Hne).
  destruct (completeFetch_waiters key err data timeout w r E Hne)
    as (w' & Hrun & _ & _ & Hclock & _ & _ & Hdel & Hkeep & _).
  exists w'. split; [done|]. rewrite dataPendingFor_eq.
  destruct (truthyNum timeout) eqn:Ht.
  - destruct timeout as [d|]; [|done]. simpl in Ht.
    assert (Hd : d <> 0) by (destruct (d =? 0) eqn:H0; [done | lia]).
    specialize (Hkeep d eq_refl Hd).
    unfold liveResult, clearStale. rewrite Hkeep, Hclock. simpl.
    assert (Hlive : notStale (storedExpiration (clock w) d) (clock w) = true).
    { unfold storedExpiration. destruct (0 <? d) eqn:Hlt; [|done].
      simpl. destruct (clock w <? clock w + d) eqn:Hl; [done | lia]. }
    by rewrite Hlive.
  - specialize (Hdel eq_refl).
    unfold liveResult, clearStale, queueSize. by rewrite Hdel.
Qed.

Lemma dataPendingFor_after_completeFetch_witness :
  exists w',
    completeFetch "key3" JNull (JStr "key3-data-goes-here") (Some 1000)
      (set_queue {[ "key3" := newRecord (UserCallback 1) ]} initialWorld)
    = (Returned tt, w')
    /\ dataPendingFor "key3" w' = (Returned true, w').
Proof.
  apply (dataPendingFor_after_completeFetch "key3" JNull
           (JStr "key3-data-goes-here") (Some 1000)
           (set_queue {[ "key3" := newRecord (UserCallback 1) ]} initialWorld)).
  vm_compute. lia.
Defined.

(** ** Keys do not interfere *)

Lemma registerFetch_other key k cb (forceUpdate : bool) w :
  k <> key ->
  CALLBACK_QUEUE (registerFetch key cb forceUpdate w).2 !! k
  = CALLBACK_QUEUE w !! k.
Proof.
  intros Hk.
  destruct (if forceUpdate then None else liveResult w key)
    as [[err data]|] eqn:Hc.
  - destruct forceUpdate; [done|].
    by rewrite (registerFetch_cached _ cb _ _ _ Hc).
  - assert (Hcases : queueSize (CALLBACK_QUEUE w) key = 0%nat
                     \/ (0 < queueSize (CALLBACK_QUEUE w) key)%nat) by lia.
    destruct Hcases as [Hz|Hpos].
    + rewrite (registerFetch_own key cb forceUpdate w Hc Hz). simpl.
      rewrite lookup_insert_ne by done. by apply clearStale_other.
    + destruct (registerFetch_join key cb forceUpdate w Hc Hpos) as (r1 & _ & ->).
      simpl. rewrite lookup_insert_ne by done. by apply clearStale_other.
Qed.

Lemma fetchingWorld_other key k interval f w :
  k <> key ->
  CALLBACK_QUEUE (fetchingWorld key interval f w) !! k = CALLBACK_QUEUE w !! k.
Proof.
  intros Hk. unfold fetchingWorld. simpl.
  rewrite lookup_insert_ne by done. by apply clearStale_other.
Qed.

Lemma scheduleFetch_other key k interval f w :
  k <> key ->
  CALLBACK_QUEUE (scheduleFetch key interval f w).2 !! k
  = CALLBACK_QUEUE w !! k.
Proof.
  intros Hk.
  assert (Hcases : queueSize (CALLBACK_QUEUE w) key = 0%nat
                   \/ (0 < queueSize (CALLBACK_QUEUE w) key)%nat) by lia.
  destruct Hcases as [Hz|Hpos].
  - rewrite (scheduleFetch_idle _ _ _ _ Hz).
    destruct f as [[id err data|id]|]; simpl.
    + pose proof (completeFetch_other key k err data (Some (-1))
                    (logFetchCall (FetchNow id err data) key
                       (fetchingWorld key interval
                          (Some (FetchNow id err data)) w)) Hk) as Hc.
      unfold completion.
      destruct (completeFetch key err data (Some (-1)) _) as [[[]|e] w'];
        simpl in *; rewrite Hc; by apply fetchingWorld_other.
    + rewrite lookup_insert_ne by done. by apply clearStale_other.
    + rewrite lookup_insert_ne by done. by apply clearStale_other.
  - by rewrite (scheduleFetch_busy _ _ _ _ Hpos).
Qed.

Lemma cancelScheduleFetch_other key k w :
  k <> key ->
  CALLBACK_QUEUE (cancelScheduleFetch key w).2 !! k = CALLBACK_QUEUE w !! k.
Proof.
  intros Hk. rewrite cancelScheduleFetch_eq.
  destruct (0 <? queueSize (CALLBACK_QUEUE w) key)%nat; [done|].
  destruct (CALLBACK_QUEUE w !! key) as [r|]; [|done].
  destruct (fetchTimer r); [|done].
  simpl. by rewrite lookup_delete_ne.
Qed.

Lemma expireCachedData_other key k w :
  k <> key ->
  CALLBACK_QUEUE (expireCachedData key w).2 !! k = CALLBACK_QUEUE w !! k.
Proof.
  intros Hk. rewrite expireCachedData_eq. simpl.
  destruct (CALLBACK_QUEUE w !! key) as [r|]; [|done].
  destruct (results r); [|done].
  simpl. by rewrite lookup_insert_ne.
Qed.

(** X8.  A call on one key never touches the record of another key: for
    [k] other than [key], the entry of [k] is the same before and after
    [registerFetch], [completeFetch], [scheduleFetch], [cancelScheduleFetch],
    [cachedDataFor], [dataPendingFor] and [expireCachedData] on [key],
    whether the call returns or throws. *)
Theorem calls_leave_other_keys key k w :
  k <> key ->
  (forall cb forceUpdate,
      CALLBACK_QUEUE (registerFetch key cb forceUpdate w).2 !! k
      = CALLBACK_QUEUE w !! k)
  /\ (forall err data timeout,
        CALLBACK_QUEUE (completeFetch key err data timeout w).2 !! k
        = CALLBACK_QUEUE w !! k)
  /\ (forall interval f,
        CALLBACK_QUEUE (scheduleFetch key interval f w).2 !! k
        = CALLBACK_QUEUE w !! k)
  /\ CALLBACK_QUEUE (cancelScheduleFetch key w).2 !! k = CALLBACK_QUEUE w !! k
  /\ CALLBACK_QUEUE (cachedDataFor key w).2 !! k = CALLBACK_QUEUE w !! k
  /\ CALLBACK_QUEUE (dataPendingFor key w).2 !! k = CALLBACK_QUEUE w !! k
  /\ CALLBACK_QUEUE (expireCachedData key w).2 !! k = CALLBACK_QUEUE w !! k.
Proof.
  intros Hk. repeat apply conj.
  - intros cb forceUpdate. by apply registerFetch_other.
  - intros err data timeout. by apply completeFetch_other.
  - intros interval f. by apply scheduleFetch_other.
  - by apply cancelScheduleFetch_other.
  - rewrite cachedDataFor_eq. by apply clearStale_other.
  - rewrite dataPendingFor_eq. by apply clearStale_other.
  - by apply expireCachedData_other.
Qed.

Lemma calls_leave_other_keys_witness :
  CALLBACK_QUEUE
    (completeFetch "key1" JNull (JStr "data-goes-here") None
       (set_queue {[ "key1" := newRecord (UserCallback 1) ]} initialWorld)).2
    !! "key2"
  = None
  /\ CALLBACK_QUEUE
       (registerFetch "key2" (UserCallback 3) true
          (set_queue {[ "key1" := newRecord (UserCallback 1) ]} initialWorld)).2
       !! "key1"
     = Some (newRecord (UserCallback 1)).
Proof.
  split.
  - pose proof (calls_leave_other_keys "key1" "key2"
      (set_queue {[ "key1" := newRecord (UserCallback 1) ]} initialWorld))
      as (_ & Hcomplete & _); [done|].
    rewrite Hcomplete. reflexivity.
  - pose proof (calls_leave_other_keys "key2" "key1"
      (set_queue {[ "key1" := newRecord (UserCallback 1) ]} initialWorld))
      as (Hregister & _); [done|].
    rewrite Hregister. reflexivity.
Defined.

(** ** Coalescing *)

(** Registrations on a key whose fetch is in flight all join it. *)
Lemma registerAll_join key cbs : forall w r,
  CALLBACK_QUEUE w !! key = Some r ->
  callbacks r <> [] ->
  results r = None ->
  registerAll key cbs w
  = (Returned (repeat true (length cbs)),
     set_queue (<[key := set_callbacks (callbacks r ++ cbs) r]>
                  (CALLBACK_QUEUE w)) w).
Proof.
  induction cbs as [|cb rest IH]; intros w r E Hne Hres.
  - simpl. unfold ret. rewrite app_nil_r, set_callbacks_id.
    by rewrite (insert_id _ _ _ E), set_queue_id.
  - simpl. unfold bind at 1.
    assert (Hc : liveResult w key = None)
      by (unfold liveResult; by rewrite E, Hres).
    assert (Hpos : (0 < queueSize (CALLBACK_QUEUE w) key)%nat).
    { rewrite (queueSize_lookup _ _ _ E).
      destruct (callbacks r); [done | simpl; lia]. }
    destruct (registerFetch_join key cb false w Hc Hpos) as (r1 & E1 & ->).
    rewrite (clearStale_no_result _ _ _ E Hres) in *.
    rewrite E in E1. injection E1 as <-.
    unfold bind at 1.
    rewrite (IH _ (set_callbacks (callbacks r ++ [cb]) r));
      [|simpl; by rewrite lookup_insert_eq
       |simpl; by destruct (callbacks r)
       |done].
    unfold ret. simpl. rewrite insert_insert_eq, <- app_assoc. done.
Qed.

(** X9.  Coalescing.  When several callers register on a key that has no
    waiters and no live result, the first is told [false] and every other
    [true]; the waiters are the callbacks in the order of the calls and
    nothing is deferred yet.  One [completeFetch] then defers one call per
    callback, in that order, and leaves the key without waiters. *)
Theorem registrations_coalesce key cb rest err data timeout w :
  liveResult w key = None ->
  queueSize (CALLBACK_QUEUE w) key = 0%nat ->
  exists w1 r1 w2,
    registerAll key (cb :: rest) w
    = (Returned (false :: repeat true (length rest)), w1)
    /\ CALLBACK_QUEUE w1 !! key = Some r1
    /\ callbacks r1 = cb :: rest
    /\ nextTickQueue w1 = nextTickQueue w
    /\ completeFetch key err data timeout w1 = (Returned tt, w2)
    /\ nextTickQueue w2
       = nextTickQueue w ++ map (fun c => Tick c err data) (cb :: rest)
    /\ queueSize (CALLBACK_QUEUE w2) key = 0%nat.
Proof.
  intros Hc Hz. simpl. unfold bind at 1.
  rewrite (registerFetch_own key cb false w Hc Hz). unfold bind at 1.
  rewrite (registerAll_join key rest _ (newRecord cb));
    [|simpl; by rewrite lookup_insert_eq|done|done].
  unfold ret. simpl. rewrite insert_insert_eq.
  pose proof (clearStale_frame key w) as (Hticks & _).
  set (w1 := set_queue _ _).
  assert (E1 : CALLBACK_QUEUE w1 !! key
               = Some (set_callbacks (cb :: rest) (newRecord cb))).
  { subst w1. simpl. by rewrite lookup_insert_eq. }
  destruct (completeFetch_waiters key err data timeout w1 _ E1)
    as (w2 & Hrun & Hq & _); [done|].
  exists w1. eexists. exists w2. split; [done|]. split; [exact E1|].
  split; [done|]. split; [done|]. split; [done|]. split.
  - rewrite Hq. subst w1. simpl. by rewrite Hticks.
  - apply (completeFetch_leaves_no_waiters key err data timeout w1); [|done].
    rewrite (queueSize_lookup _ _ _ E1). simpl. lia.
Qed.

Lemma registrations_coalesce_witness :
  exists w1,
    registerAll "key1" [UserCallback 1; UserCallback 2; UserCallback 3]
      initialWorld
    = (Returned [false; true; true], w1)
    /\ queueSize (CALLBACK_QUEUE w1) "key1" = 3%nat.
Proof.
  destruct (registrations_coalesce "key1" (UserCallback 1)
              [UserCallback 2; UserCallback 3] JNull (JStr "data-goes-here")
              None initialWorld)
    as (w1 & r1 & w2 & Hrun & E1 & Hcbs & _); [reflexivity | reflexivity |].
  exists w1. split; [exact Hrun|].
  unfold queueSize. rewrite E1, Hcbs. reflexivity.
Defined.

(** ** Scheduled fetches *)

(** [completeFetch] on a record carrying a truthy fetch interval: the
    refetch timer is armed with the next handle; with a falsy timeout the
    record is deleted all the same. *)
Lemma completeFetch_scheduled_eq key err data timeout w r i :
  CALLBACK_QUEUE w !! key = Some r ->
  callbacks r <> [] ->
  fetchInterval r = Some i ->
  i <> 0 ->
  (timeout = Some (-1) \/ truthyNum timeout = false) ->
  completeFetch key err data timeout w
  = (Returned tt,
     mkWorld
       (if truthyNum timeout
        then <[key := mkRecord [] ExpNull (Some i) (fetchFunction r)
                        (Some (timerSeq w)) (Some (err, data))]>
               (CALLBACK_QUEUE w)
        else delete key (CALLBACK_QUEUE w))
       (nextTickQueue w ++ notifications (callbacks r) err data)
       (delivered w)
       (<[timerSeq w := mkTimer (clock w) i (TRefetch key)]> (timers w))
       (S (timerSeq w)) (clock w) (fetchCalls w)).
Proof.
  intros E Hne Ei Hi Ht.
  assert (Hpos : (0 <? queueSize (CALLBACK_QUEUE w) key)%nat = true).
  { apply Nat.ltb_lt. rewrite (queueSize_lookup _ _ _ E).
    destruct (callbacks r); [done | simpl; lia]. }
  assert (Hi0 : (i =? 0) = false) by lia.
  unfold completeFetch. unfold bind at 1. unfold sizeOfCallbackQueue at 1.
  rewrite Hpos. unfold bind at 1. unfold getRecord at 1. rewrite E.
  unfold bind at 1. rewrite forEach_nextTick.
  destruct w as [q ticks dl tm sq now fc]. simpl in *.
  destruct Ht as [->|Ht].
  - unfold_m; simpl;
      repeat (rewrite ?E, ?Ei, ?Hi0, ?lookup_insert_eq, ?insert_insert_eq;
              unfold_set; simpl).
    done.
  - destruct timeout as [d|];
      [destruct (d =? 0) eqn:Hd0; [|simpl in Ht; rewrite Hd0 in Ht; done]|];
      unfold_m; simpl;
      repeat (rewrite ?E, ?Ei, ?Hi0, ?Hd0, ?lookup_insert_eq,
                ?insert_insert_eq; unfold_set; simpl);
      by rewrite delete_insert_eq.
Qed.

Lemma scheduleFetch_now_eq key i id err data w :
  queueSize (CALLBACK_QUEUE w) key = 0%nat ->
  i <> 0 ->
  scheduleFetch key (Some i) (Some (FetchNow id err data)) w
  = (Returned true, refetchedWorld key i (FetchNow id err data) err data w).
Proof.
  intros Hz Hi. rewrite (scheduleFetch_idle _ _ _ _ Hz). unfold completion.
  rewrite (completeFetch_scheduled_eq key err data (Some (-1)) _
             (fetchingRecord (Some i) (Some (FetchNow id err data))) i);
    [|simpl; by rewrite lookup_insert_eq|done|done|done|by left].
  unfold refetchedWorld. simpl. by rewrite insert_insert_eq.
Qed.

Lemma refetchedWorld_frame key i f err data w :
  timerSeq (refetchedWorld key i f err data w) = S (timerSeq w)
  /\ clock (refetchedWorld key i f err data w) = clock w
  /\ fetchCalls (refetchedWorld key i f err data w) = fetchCalls w ++ [(f, key)]
  /\ nextTickQueue (refetchedWorld key i f err data w)
     = nextTickQueue w ++ [Tick nullFn err data]
  /\ timers (refetchedWorld key i f err data w)
     = <[timerSeq w := mkTimer (clock w) i (TRefetch key)]> (timers w)
  /\ CALLBACK_QUEUE (refetchedWorld key i f err data w) !! key
     = Some (mkRecord [] ExpNull (Some i) (Some f) (Some (timerSeq w))
               (Some (err, data))).
Proof.
  pose proof (clearStale_frame key w) as (Ht & _ & Htm & Hs & Hc & Hf).
  unfold refetchedWorld. simpl. rewrite Ht, Htm, Hs, Hc, Hf.
  by rewrite lookup_insert_eq.
Qed.

(** X10.  The scheduled cycle.  [scheduleFetch] with a truthy interval [i]
    and a fetch function that completes at once returns [true] with the
    refetch timer armed for [i].  From then on a registration without
    [forceUpdate] is served the fetched pair at any time.  When the timer
    fires, [i] or more later, the fetch function is called once more, the
    fired timer is gone and the next one is armed for [i] from that moment:
    the cycle goes on by itself. *)
Theorem scheduled_fetch_rearms key i id err data w :
  queueSize (CALLBACK_QUEUE w) key = 0%nat ->
  i <> 0 ->
  exists w1,
    scheduleFetch key (Some i) (Some (FetchNow id err data)) w
    = (Returned true, w1)
    /\ timers w1 !! timerSeq w = Some (mkTimer (clock w) i (TRefetch key))
    /\ (forall now cb,
          registerFetch key cb false (set_clock now w1)
          = (Returned true, queueTicks [Tick cb err data] (set_clock now w1)))
    /\ (forall now, clock w + i <= now ->
          exists w2,
            fireTimer (timerSeq w) (set_clock now w1) = (Returned tt, w2)
            /\ fetchCalls w2
               = fetchCalls w ++ [(FetchNow id err data, key);
                                  (FetchNow id err data, key)]
            /\ timers w2 !! timerSeq w = None
            /\ timers w2 !! S (timerSeq w)
               = Some (mkTimer now i (TRefetch key))
            /\ liveResult w2 key = Some (err, data)).
Proof.
  intros Hz Hi. rewrite (scheduleFetch_now_eq _ _ _ _ _ _ Hz Hi).
  pose proof (refetchedWorld_frame key i (FetchNow id err data) err data w)
    as (Hseq & Hclock & Hcalls & Hticks & Htimers & Hrec).
  eexists. split; [reflexivity|]. split.
  { rewrite Htimers. by rewrite lookup_insert_eq. }
  split.
  { intros now cb. apply registerFetch_cached.
    unfold liveResult.
    change (CALLBACK_QUEUE (set_clock now
              (refetchedWorld key i (FetchNow id err data) err data w)))
      with (CALLBACK_QUEUE
              (refetchedWorld key i (FetchNow id err data) err data w)).
    by rewrite Hrec. }
  intros now Hnow.
  set (w1 := refetchedWorld key i (FetchNow id err data) err data w) in *.
  unfold fireTimer.
  change (timers (set_clock now w1)) with (timers w1).
  rewrite Htimers, lookup_insert_eq.
  cbn [timer_armedAt timer_delay timer_action clock set_clock].
  destruct (clock w + i <=? now) eqn:Hdue; [|lia].
  unfold bind at 1. unfold clearTimeout at 1. unfold runTimerAction.
  unfold bind at 1. unfold getRecord at 1.
  cbn [CALLBACK_QUEUE set_clock]. rewrite Hrec.
  unfold bind at 1. cbn [fetchInterval fetchFunction].
  change (nextTickQueue (set_clock now w1)) with (nextTickQueue w1).
  change (delivered (set_clock now w1)) with (delivered w1).
  change (timers (set_clock now w1)) with (timers w1).
  change (timerSeq (set_clock now w1)) with (timerSeq w1).
  change (clock (set_clock now w1)) with now.
  change (fetchCalls (set_clock now w1)) with (fetchCalls w1).
  set (w1' := mkWorld _ _ _ _ _ _ _).
  assert (Hrec' : CALLBACK_QUEUE w1' !! key
                  = Some (mkRecord [] ExpNull (Some i)
                            (Some (FetchNow id err data))
                            (Some (timerSeq w)) (Some (err, data))))
    by exact Hrec.
  assert (Hz' : queueSize (CALLBACK_QUEUE w1') key = 0%nat)
    by (unfold queueSize; by rewrite Hrec').
  rewrite (scheduleFetch_now_eq _ _ _ _ _ _ Hz' Hi). unfold ret.
  eexists. split; [reflexivity|].
  pose proof (refetchedWorld_frame key i (FetchNow id err data) err data w1')
    as (_ & _ & Hcalls2 & _ & Htimers2 & Hrec2).
  rewrite Hcalls2, Htimers2. unfold liveResult. rewrite Hrec2.
  subst w1'. cbn [fetchCalls timers timerSeq clock].
  rewrite Hcalls, Hseq, Htimers, <- app_assoc.
  split; [done|]. split.
  { rewrite lookup_insert_ne by lia. by rewrite lookup_delete_eq. }
  split; [by rewrite lookup_insert_eq | done].
Qed.

Lemma scheduled_fetch_rearms_witness :
  exists w1 w2,
    scheduleFetch "key5" (Some 1000)
      (Some (FetchNow 5 JNull (JStr "AutoFetch number 1"))) initialWorld
    = (Returned true, w1)
    /\ fireTimer 0%nat (set_clock 1000 w1) = (Returned tt, w2)
    /\ timers w2 !! 1%nat = Some (mkTimer 1000 1000 (TRefetch "key5")).
Proof.
  destruct (scheduled_fetch_rearms "key5" 1000 5 JNull
              (JStr "AutoFetch number 1") initialWorld)
    as (w1 & Hrun & _ & _ & Hfire); [reflexivity | lia |].
  destruct (Hfire 1000) as (w2 & Hfired & _ & _ & Hnext & _); [simpl; lia|].
  exists w1, w2. split; [exact Hrun|]. split; [exact Hfired | exact Hnext].
Defined.

(** X11.  Cancelling ends the cycle.  After a scheduled fetch that completed
    at once, [cancelScheduleFetch] deletes the record and clears the refetch
    timer: the key is not pending any more, and when the time of the timer
    comes nothing happens, so the fetch function has been called once and is
    not called again. *)
Theorem cancel_stops_scheduled_fetch key i id err data w :
  queueSize (CALLBACK_QUEUE w) key = 0%nat ->
  i <> 0 ->
  exists w1 w2,
    scheduleFetch key (Some i) (Some (FetchNow id err data)) w
    = (Returned true, w1)
    /\ cancelScheduleFetch key w1 = (Returned JUndefined, w2)
    /\ CALLBACK_QUEUE w2 !! key = None
    /\ timers w2 !! timerSeq w = None
    /\ fetchCalls w2 = fetchCalls w ++ [(FetchNow id err data, key)]
    /\ dataPendingFor key w2 = (Returned false, w2)
    /\ (forall now,
          fireTimer (timerSeq w) (set_clock now w2)
          = (Returned tt, set_clock now w2)).
Proof.
  intros Hz Hi. rewrite (scheduleFetch_now_eq _ _ _ _ _ _ Hz Hi).
  pose proof (refetchedWorld_frame key i (FetchNow id err data) err data w)
    as (Hseq & Hclock & Hcalls & Hticks & Htimers & Hrec).
  set (w1 := refetchedWorld key i (FetchNow id err data) err data w) in *.
  exists w1. eexists. split; [done|].
  rewrite cancelScheduleFetch_eq. unfold queueSize. rewrite Hrec.
  cbn [callbacks length Nat.ltb Nat.leb fetchTimer].
  split; [reflexivity|]. cbn [CALLBACK_QUEUE timers fetchCalls].
  assert (Hgone : delete key (CALLBACK_QUEUE w1) !! key = None)
    by apply lookup_delete_eq.
  split; [done|]. split; [apply lookup_delete_eq|]. split; [done|]. split.
  - rewrite dataPendingFor_eq. unfold liveResult, clearStale, queueSize.
    cbn [CALLBACK_QUEUE]. by rewrite Hgone.
  - intros now. unfold fireTimer. cbn [timers set_clock].
    by rewrite lookup_delete_eq.
Qed.

Lemma cancel_stops_scheduled_fetch_witness :
  exists w1 w2,
    scheduleFetch "key5" (Some 1000)
      (Some (FetchNow 5 JNull (JStr "AutoFetch number 1"))) initialWorld
    = (Returned true, w1)
    /\ cancelScheduleFetch "key5" w1 = (Returned JUndefined, w2)
    /\ fireTimer 0%nat (set_clock 1000 w2) = (Returned tt, set_clock 1000 w2).
Proof.
  destruct (cancel_stops_scheduled_fetch "key5" 1000 5 JNull
              (JStr "AutoFetch number 1") initialWorld)
    as (w1 & w2 & Hrun & Hcancel & _ & _ & _ & _ & Hquiet);
    [reflexivity | lia |].
  exists w1, w2. split; [exact Hrun|]. split; [exact Hcancel | apply Hquiet].
Defined.

(** X12.  A falsy interval schedules nothing.  [scheduleFetch] with an
    interval of [0], or none, and a fetch function that completes at once
    calls it once and arms no timer.  The result stays cached at any later
    time, and [cancelScheduleFetch] finds no timer handle and leaves the
    record where it is. *)
Theorem falsy_interval_fetches_once key interval id err data w :
  queueSize (CALLBACK_QUEUE w) key = 0%nat ->
  truthyNum interval = false ->
  exists w1,
    scheduleFetch key interval (Some (FetchNow id err data)) w
    = (Returned true, w1)
    /\ (forall t e, timers w1 !! t = Some e -> timers w !! t = Some e)
    /\ fetchCalls w1 = fetchCalls w ++ [(FetchNow id err data, key)]
    /\ (forall now, liveResult (set_clock now w1) key = Some (err, data))
    /\ cancelScheduleFetch key w1 = (Returned JUndefined, w1).
Proof.
  intros Hz Hfalsy. rewrite (scheduleFetch_idle _ _ _ _ Hz).
  pose proof (clearStale_frame key w) as (_ & _ & Htm & _ & _ & Hcalls).
  set (w0 := logFetchCall (FetchNow id err data) key
               (fetchingWorld key interval (Some (FetchNow id err data)) w)).
  assert (E : CALLBACK_QUEUE w0 !! key
              = Some (fetchingRecord interval (Some (FetchNow id err data)))).
  { subst w0. simpl. by rewrite lookup_insert_eq. }
  unfold completion.
  destruct (completeFetch_waiters key err data (Some (-1)) w0 _ E)
    as (w1 & -> & _ & _ & _ & Hfc & _ & _ & Hkeep & Htimers & _); [done|].
  assert (Hneg : -1 <> 0) by lia.
  specialize (Hkeep (-1) eq_refl Hneg).
  cbn [fetchingRecord fetchInterval fetchFunction fetchTimer] in Hkeep.
  rewrite Hfalsy in Hkeep.
  exists w1. split; [done|]. split; [|split; [|split]].
  - intros t e Ht. destruct (Htimers t e Ht) as [Hold|[H|H]].
    + subst w0. simpl in Hold. by rewrite Htm in Hold.
    + destruct H as (i & Hint & Hi & _). simpl in Hint.
      rewrite Hint in Hfalsy. simpl in Hfalsy.
      destruct (i =? 0) eqn:H0; [lia | done].
    + destruct H as (d & [= <-] & ? & _). lia.
  - rewrite Hfc. subst w0. simpl. by rewrite Hcalls.
  - intros now. unfold liveResult. cbn [CALLBACK_QUEUE set_clock].
    by rewrite Hkeep.
  - rewrite cancelScheduleFetch_eq. unfold queueSize. by rewrite Hkeep.
Qed.

Lemma falsy_interval_fetches_once_witness :
  exists w1,
    scheduleFetch "key5" (Some 0)
      (Some (FetchNow 5 JNull (JStr "AutoFetch number 1"))) initialWorld
    = (Returned true, w1)
    /\ cancelScheduleFetch "key5" w1 = (Returned JUndefined, w1)
    /\ liveResult (set_clock 86400000 w1) "key5"
       = Some (JNull, JStr "AutoFetch number 1").
Proof.
  destruct (falsy_interval_fetches_once "key5" (Some 0) 5 JNull
              (JStr "AutoFetch number 1") initialWorld)
    as (w1 & Hrun & _ & _ & Hlive & Hcancel); [reflexivity | reflexivity |].
  exists w1. split; [exact Hrun|]. split; [exact Hcancel | apply Hlive].
Defined.

(** X13.  Expiration timers are never cleared, and [expireCachedData] does
    not look at the expiration: when the timer armed for a key fires, the
    result stored for the key at that moment is dropped even if it is live,
    be it a newer result with a later or a [null] expiration. *)
Theorem expiry_timer_evicts_live_result key t e res w :
  timers w !! t = Some e ->
  timer_action e = TExpire key ->
  timer_armedAt e + timer_delay e <= clock w ->
  liveResult w key = Some res ->
  exists w',
    fireTimer t w = (Returned tt, w')
    /\ liveResult w' key = None
    /\ clock w' = clock w
    /\ cachedDataFor key w' = (Returned None, w').
Proof.
  intros Ht Hact Hdue Hlive. unfold fireTimer. rewrite Ht, Hact.
  destruct (timer_armedAt e + timer_delay e <=? clock w) eqn:Hd; [|lia].
  unfold bind, clearTimeout, runTimerAction. rewrite expireCachedData_eq.
  cbn [CALLBACK_QUEUE].
  unfold liveResult in Hlive.
  destruct (CALLBACK_QUEUE w !! key) as [r|] eqn:E; [|done].
  destruct (results r) as [res'|] eqn:Er; [|done].
  eexists. split; [reflexivity|].
  assert (Hnone : liveResult
                    (set_queue (<[key:=set_results None r]> (CALLBACK_QUEUE w))
                       (mkWorld (CALLBACK_QUEUE w) (nextTickQueue w)
                          (delivered w) (delete t (timers w)) (timerSeq w)
                          (clock w) (fetchCalls w))) key = None).
  { unfold liveResult. simpl. by rewrite lookup_insert_eq. }
  split; [exact Hnone|]. split; [done|].
  rewrite cachedDataFor_eq, Hnone. f_equal.
  unfold clearStale. simpl. by rewrite lookup_insert_eq.
Qed.

Lemma expiry_timer_evicts_live_result_witness :
  liveResult afterForcedUpdate "key4"
  = Some (JNull, JStr "different-data-for-key4")
  /\ CALLBACK_QUEUE afterForcedUpdate !! "key4"
     = Some (mkRecord [] (ExpAt 5500) None None None
               (Some (JNull, JStr "different-data-for-key4")))
  /\ clock afterForcedUpdate = 1000
  /\ exists w',
       fireTimer 0%nat afterForcedUpdate = (Returned tt, w')
       /\ liveResult w' "key4" = None.
Proof.
  split; [vm_compute; reflexivity|]. split; [vm_compute; reflexivity|].
  split; [reflexivity|].
  destruct (expiry_timer_evicts_live_result "key4" 0%nat
              (mkTimer 0 1000 (TExpire "key4"))
              (JNull, JStr "different-data-for-key4") afterForcedUpdate)
    as (w' & Hfire & Hnone & _).
  - vm_compute. reflexivity.
  - reflexivity.
  - vm_compute. discriminate.
  - vm_compute. reflexivity.
  - exists w'. split; [exact Hfire | exact Hnone].
Defined.



(** X15.  A refetch timer outlives the record it was armed for.  When it
    fires on a key whose record has since been replaced, so that it has no
    fetch function, and has no waiters, its closure calls [scheduleFetch]
    with [undefined] arguments: a record waiting with [nullFn] is put in
    place of the one there, dropping its result, and the call of the missing
    fetch function throws a TypeError.  No fetch is running for the key, yet
    from then on every [registerFetch] on it returns [true]. *)
Theorem refetch_timer_on_replaced_record key t e r w :
  timers w !! t = Some e ->
  timer_action e = TRefetch key ->
  timer_armedAt e + timer_delay e <= clock w ->
  CALLBACK_QUEUE w !! key = Some r ->
  callbacks r = [] ->
  fetchFunction r = None ->
  exists w',
    fireTimer t w = (Raised TypeError, w')
    /\ CALLBACK_QUEUE w' !! key
       = Some (mkRecord [nullFn] ExpAbsent (fetchInterval r) None None None)
    /\ fetchCalls w' = fetchCalls w
    /\ (forall now, liveResult (set_clock now w') key = None)
    /\ (forall cb forceUpdate,
          (registerFetch key cb forceUpdate w').1 = Returned true).
Proof.
  intros Ht Hact Hdue E Hcb Hfn. unfold fireTimer. rewrite Ht, Hact.
  destruct (timer_armedAt e + timer_delay e <=? clock w) eqn:Hd; [|lia].
  unfold bind at 1. unfold clearTimeout at 1. unfold runTimerAction.
  unfold bind at 1. unfold getRecord at 1. cbn [CALLBACK_QUEUE]. rewrite E.
  unfold bind at 1. rewrite Hfn.
  set (w0 := mkWorld _ _ _ _ _ _ _).
  assert (Hz : queueSize (CALLBACK_QUEUE w0) key = 0%nat).
  { subst w0. unfold queueSize. cbn [CALLBACK_QUEUE]. by rewrite E, Hcb. }
  rewrite (scheduleFetch_idle _ _ _ _ Hz).
  eexists. split; [reflexivity|].
  pose proof (clearStale_frame key w0) as (_ & _ & _ & _ & _ & Hcalls).
  assert (Erec : CALLBACK_QUEUE (fetchingWorld key (fetchInterval r) None w0)
                   !! key
                 = Some (mkRecord [nullFn] ExpAbsent (fetchInterval r) None
                           None None)).
  { unfold fetchingWorld. simpl. by rewrite lookup_insert_eq. }
  split; [exact Erec|]. split; [exact Hcalls|]. split.
  - intros now. unfold liveResult. cbn [CALLBACK_QUEUE set_clock].
    by rewrite Erec.
  - intros cb forceUpdate.
    assert (Hc : (if forceUpdate then None
                  else liveResult (fetchingWorld key (fetchInterval r) None w0)
                         key) = None).
    { destruct forceUpdate; [done|]. unfold liveResult. by rewrite Erec. }
    assert (Hpos : (0 < queueSize
                          (CALLBACK_QUEUE
                             (fetchingWorld key (fetchInterval r) None w0))
                          key)%nat).
    { unfold queueSize. rewrite Erec. simpl. lia. }
    by destruct (registerFetch_join_facts key cb forceUpdate _ Hc Hpos)
      as (? & ? & _ & ? & _).
Qed.

Lemma refetch_timer_on_replaced_record_witness :
  liveResult afterForcedUpdateOfScheduled "key5" = Some (JNull, JStr "forced")
  /\ exists w',
       fireTimer 0%nat afterForcedUpdateOfScheduled = (Raised TypeError, w')
       /\ liveResult w' "key5" = None
       /\ (registerFetch "key5" (UserCallback 10) false w').1 = Returned true.
Proof.
  split; [vm_compute; reflexivity|].
  destruct (refetch_timer_on_replaced_record "key5" 0%nat
              (mkTimer 0 1000 (TRefetch "key5"))
              (mkRecord [] (ExpAt 5000) None None None
                 (Some (JNull, JStr "forced")))
              afterForcedUpdateOfScheduled)
    as (w' & Hfire & _ & _ & Hnone & Hjoin).
  - vm_compute. reflexivity.
  - reflexivity.
  - vm_compute. discriminate.
  - vm_compute. reflexivity.
  - reflexivity.
  - reflexivity.
  - exists w'. split; [exact Hfire|]. split; [|apply Hjoin].
    specialize (Hnone (clock w')). unfold liveResult in *.
    cbn [CALLBACK_QUEUE set_clock clock] in Hnone. exact Hnone.
Defined.

(** ** What holds in every reachable world *)

Lemma sound_insert key r w :
  soundRecord r ->
  registrySound w ->
  registrySound (set_queue (<[key := r]> (CALLBACK_QUEUE w)) w).
Proof. intros Hr Hw. by apply map_Forall_insert_2. Qed.

Lemma sound_clearStale key w :
  registrySound w -> registrySound (clearStale key w).
Proof.
  intros Hw. unfold clearStale.
  destruct (CALLBACK_QUEUE w !! key) as [r|]; [|done].
  destruct (results r); [|done].
  destruct (notStale (expiration r) (clock w)); [done|].
  apply sound_insert; [|done]. split; [by right | by left].
Qed.

Lemma sound_registerFetch key cb (forceUpdate : bool) w :
  registrySound w -> registrySound (registerFetch key cb forceUpdate w).2.
Proof.
  intros Hw.
  destruct (if forceUpdate then None else liveResult w key)
    as [[err data]|] eqn:Hc.
  - destruct forceUpdate; [done|].
    by rewrite (registerFetch_cached _ cb _ _ _ Hc).
  - assert (Hcases : queueSize (CALLBACK_QUEUE w) key = 0%nat
                     \/ (0 < queueSize (CALLBACK_QUEUE w) key)%nat) by lia.
    pose proof (sound_clearStale key w Hw) as Hw1.
    destruct Hcases as [Hz|Hpos].
    + rewrite (registerFetch_own key cb forceUpdate w Hc Hz).
      apply sound_insert; [|done]. split; [by right | by left].
    + destruct (registerFetch_join key cb forceUpdate w Hc Hpos)
        as (r1 & E1 & ->).
      apply sound_insert; [|done].
      destruct (Hw1 key r1 E1) as [[Hnil|Hres] Hexp].
      * rewrite <- (clearStale_queueSize key key w) in Hpos.
        rewrite (queueSize_lookup _ _ _ E1), Hnil in Hpos. simpl in Hpos. lia.
      * split; [by right | done].
Qed.

Lemma sound_completeFetch key err data timeout w :
  registrySound w -> registrySound (completeFetch key err data timeout w).2.
Proof.
  intros Hw.
  assert (Hcases : queueSize (CALLBACK_QUEUE w) key = 0%nat
                   \/ (0 < queueSize (CALLBACK_QUEUE w) key)%nat) by lia.
  destruct Hcases as [Hz|Hpos].
  - by rewrite (completeFetch_no_waiters _ _ _ _ _ Hz).
  - destruct (queueSize_pos _ _ Hpos) as (r & E & Hne).
    destruct (completeFetch_waiters key err data timeout w r E Hne)
      as (w' & -> & _ & _ & _ & _ & Hother & Hdel & Hkeep & _).
    intros k r' E'. simpl in E'.
    destruct (decide (k = key)) as [->|Hk].
    + destruct timeout as [d|]; [|rewrite Hdel in E'; done].
      destruct (decide (d = 0)) as [->|Hd]; [rewrite Hdel in E'; done|].
      rewrite (Hkeep d eq_refl Hd) in E'. injection E' as <-.
      split; [by left|]. right. simpl. unfold storedExpiration.
      by destruct (0 <? d).
    + rewrite (Hother k Hk) in E'. by apply (Hw k).
Qed.

Lemma sound_scheduleFetch key interval f w :
  registrySound w -> registrySound (scheduleFetch key interval f w).2.
Proof.
  intros Hw.
  assert (Hcases : queueSize (CALLBACK_QUEUE w) key = 0%nat
                   \/ (0 < queueSize (CALLBACK_QUEUE w) key)%nat) by lia.
  destruct Hcases as [Hz|Hpos].
  - rewrite (scheduleFetch_idle _ _ _ _ Hz).
    assert (Hfw : registrySound (fetchingWorld key interval f w)).
    { unfold fetchingWorld. apply sound_insert; [split; [by right | by left]|].
      by apply sound_clearStale. }
    destruct f as [[id err data|id]|]; [|done|done].
    pose proof (sound_completeFetch key err data (Some (-1))
                  (logFetchCall (FetchNow id err data) key
                     (fetchingWorld key interval
                        (Some (FetchNow id err data)) w)) Hfw) as Hdone.
    unfold completion.
    by destruct (completeFetch key err data (Some (-1)) _) as [[[]|e] w'].
  - by rewrite (scheduleFetch_busy _ _ _ _ Hpos).
Qed.

Lemma sound_cancelScheduleFetch key w :
  registrySound w -> registrySound (cancelScheduleFetch key w).2.
Proof.
  intros Hw. rewrite cancelScheduleFetch_eq.
  destruct (0 <? queueSize (CALLBACK_QUEUE w) key)%nat; [done|].
  destruct (CALLBACK_QUEUE w !! key) as [r|]; [|done].
  destruct (fetchTimer r); [|done].
  by apply map_Forall_delete.
Qed.

Lemma sound_expireCachedData key w :
  registrySound w -> registrySound (expireCachedData key w).2.
Proof.
  intros Hw. rewrite expireCachedData_eq. simpl.
  destruct (CALLBACK_QUEUE w !! key) as [r|]; [|done].
  destruct (results r); [|done].
  apply sound_insert; [|done]. split; [by right | by left].
Qed.

Lemma sound_fireTimer t w :
  registrySound w -> registrySound (fireTimer t w).2.
Proof.
  intros Hw. unfold fireTimer.
  destruct (timers w !! t) as [e|]; [|done].
  destruct (timer_armedAt e + timer_delay e <=? clock w); [|done].
  unfold bind at 1. unfold clearTimeout at 1.
  set (w0 := mkWorld _ _ _ _ _ _ _).
  assert (Hw0 : registrySound w0) by done.
  destruct (timer_action e) as [key|key]; simpl.
  - unfold bind at 1. unfold getRecord at 1.
    destruct (CALLBACK_QUEUE w0 !! key) as [r|]; [|done].
    unfold bind at 1.
    pose proof (sound_scheduleFetch key (fetchInterval r) (fetchFunction r)
                  w0 Hw0) as Hs.
    by destruct (scheduleFetch key (fetchInterval r) (fetchFunction r) w0)
      as [[b|ex] w'].
  - by apply sound_expireCachedData.
Qed.

Lemma sound_happen e w : registrySound w -> registrySound (happen e w).
Proof.
  intros Hw. destruct e; simpl.
  - by apply sound_registerFetch.
  - by apply sound_completeFetch.
  - by apply sound_scheduleFetch.
  - by apply sound_cancelScheduleFetch.
  - rewrite cachedDataFor_eq. by apply sound_clearStale.
  - rewrite dataPendingFor_eq. by apply sound_clearStale.
  - by apply sound_completeFetch.
  - unfold runNextTick. by destruct (nextTickQueue w).
  - by apply sound_fireTimer.
  - done.
Qed.

Lemma sound_history es : registrySound (history es).
Proof.
  unfold history.
  assert (Hgen : forall w, registrySound w ->
                           registrySound (fold_left (fun w e => happen e w) es w)).
  { induction es as [|e es IH]; intros w Hw; [done|].
    simpl. apply IH. by apply sound_happen. }
  apply Hgen. apply map_Forall_empty.
Qed.

(** X16.  In every world reached from the empty registry by calls of the
    exported functions, calls of completion callbacks, deferred calls, timers
    firing and time passing, in any order and whether or not they throw, no
    record has both waiters and a stored result, and every stored result has
    an expiration ([null] or an instant).  So while a fetch is in flight for
    a key, [cachedDataFor(key)] returns [null] and changes nothing. *)
Theorem no_result_while_fetching es :
  (forall key r,
      CALLBACK_QUEUE (history es) !! key = Some r ->
      (callbacks r = [] \/ results r = None)
      /\ (results r = None \/ expiration r <> ExpAbsent))
  /\ (forall key,
        (0 < queueSize (CALLBACK_QUEUE (history es)) key)%nat ->
        cachedDataFor key (history es) = (Returned None, history es)).
Proof.
  pose proof (sound_history es) as Hs. split.
  - intros key r E. by apply (Hs key r).
  - intros key Hpos. destruct (queueSize_pos _ _ Hpos) as (r & E & Hne).
    destruct (Hs key r E) as [[Hnil|Hres] _]; [done|].
    rewrite cachedDataFor_eq. unfold liveResult. rewrite E, Hres.
    by rewrite (clearStale_no_result _ _ _ E Hres).
Qed.

Lemma no_result_while_fetching_witness :
  liveResult
    (history
       [CallRegisterFetch "key4" (UserCallback 1) false;
        CallCompleteFetch "key4" JNull (JStr "key4-data-goes-here") (Some 1000)])
    "key4"
  = Some (JNull, JStr "key4-data-goes-here")
  /\ cachedDataFor "key4"
       (history
          [CallRegisterFetch "key4" (UserCallback 1) false;
           CallCompleteFetch "key4" JNull (JStr "key4-data-goes-here")
             (Some 1000);
           CallRegisterFetch "key4" (UserCallback 2) true])
     = (Returned None,
        history
          [CallRegisterFetch "key4" (UserCallback 1) false;
           CallCompleteFetch "key4" JNull (JStr "key4-data-goes-here")
             (Some 1000);
           CallRegisterFetch "key4" (UserCallback 2) true]).
Proof.
  split; [vm_compute; reflexivity|].
  pose proof (no_result_while_fetching
                [CallRegisterFetch "key4" (UserCallback 1) false;
                 CallCompleteFetch "key4" JNull (JStr "key4-data-goes-here")
                   (Some 1000);
                 CallRegisterFetch "key4" (UserCallback 2) true])
    as [_ Hnone].
  apply Hnone. vm_compute. lia.
Defined.

(** X17.  A scheduled fetch in flight coalesces like any other.  While the
    fetch function of [scheduleFetch] has not completed, a registration on
    the key, with or without [forceUpdate], returns [true] and waits behind
    [nullFn]; the completion callback then defers [nullFn] and the callback
    with the fetched pair, in that order, and the pair stays cached at any
    later time. *)
Theorem scheduled_fetch_serves_joiners key interval id cb
    (forceUpdate : bool) err data w :
  queueSize (CALLBACK_QUEUE w) key = 0%nat ->
  exists w1 w2 w3,
    scheduleFetch key interval (Some (FetchLater id)) w = (Returned true, w1)
    /\ registerFetch key cb forceUpdate w1 = (Returned true, w2)
    /\ completion key err data w2 = (Returned tt, w3)
    /\ nextTickQueue w3
       = nextTickQueue w ++ [Tick nullFn err data; Tick cb err data]
    /\ (forall now, liveResult (set_clock now w3) key = Some (err, data)).
Proof.
  intros Hz. rewrite (scheduleFetch_idle _ _ _ _ Hz).
  pose proof (clearStale_frame key w) as (Hticks & _).
  set (w1 := logFetchCall (FetchLater id) key
               (fetchingWorld key interval (Some (FetchLater id)) w)).
  assert (E1 : CALLBACK_QUEUE w1 !! key
               = Some (fetchingRecord interval (Some (FetchLater id)))).
  { subst w1. simpl. by rewrite lookup_insert_eq. }
  assert (Hc : (if forceUpdate then None else liveResult w1 key) = None).
  { destruct forceUpdate; [done|]. unfold liveResult. by rewrite E1. }
  assert (Hpos : (0 < queueSize (CALLBACK_QUEUE w1) key)%nat).
  { unfold queueSize. rewrite E1. simpl. lia. }
  destruct (registerFetch_join key cb forceUpdate w1 Hc Hpos) as (r1 & Er1 & Hreg).
  rewrite (clearStale_no_result _ _ _ E1 eq_refl) in Er1, Hreg.
  rewrite E1 in Er1. injection Er1 as <-.
  set (w2 := set_queue _ w1) in Hreg.
  assert (E2 : CALLBACK_QUEUE w2 !! key
               = Some (set_callbacks [nullFn; cb]
                         (fetchingRecord interval (Some (FetchLater id))))).
  { subst w2. simpl. by rewrite lookup_insert_eq. }
  destruct (completion_stores_for_good key err data w2 _ E2)
    as (w3 & r3 & Hrun & E3 & _ & Hres & Hexp & _ & _ & Hq & _); [done|].
  exists w1, w2, w3. split; [done|]. split; [done|]. split; [done|]. split.
  - rewrite Hq. subst w2 w1. simpl. by rewrite Hticks.
  - intros now. unfold liveResult. cbn [CALLBACK_QUEUE set_clock].
    by rewrite E3, Hres, Hexp.
Qed.

Lemma scheduled_fetch_serves_joiners_witness :
  exists w1 w2 w3,
    scheduleFetch "key5" (Some 1000) (Some (FetchLater 6)) initialWorld
    = (Returned true, w1)
    /\ registerFetch "key5" (UserCallback 7) false w1 = (Returned true, w2)
    /\ completion "key5" JNull (JStr "AutoFetch number 1") w2 = (Returned tt, w3)
    /\ nextTickQueue w3
       = [Tick nullFn JNull (JStr "AutoFetch number 1");
          Tick (UserCallback 7) JNull (JStr "AutoFetch number 1")].
Proof.
  destruct (scheduled_fetch_serves_joiners "key5" (Some 1000) 6
              (UserCallback 7) false JNull (JStr "AutoFetch number 1")
              initialWorld)
    as (w1 & w2 & w3 & H1 & H2 & H3 & H4 & _); [reflexivity|].
  exists w1, w2, w3. split; [exact H1|]. split; [exact H2|].
  split; [exact H3 | exact H4].
Defined.
